(** * Account switching: a shallow embedding of [pkg/cmd/auth/switch/switch.go]

    The command resolves which stored (host, user) login becomes the active
    one.  The collaborators of [switchRun] (configuration, prompter, terminal)
    are Go interfaces; they are modelled as records of functions over a fixed
    snapshot, and every call made to them is logged as an [event], so that
    "is never invoked" is a statement about the log. *)

From Stdlib Require Import String Ascii List ZArith Bool Lia.
Import ListNotations.
Open Scope list_scope.
Open Scope string_scope.

(** ** Go values *)

(** Go [error] values.  [errors.New] and [fmt.Errorf] without [%w] build an
    [errorString]; [fmt.Errorf] with [%w] keeps the wrapped error. *)
Inductive error : Type :=
| errorString (s : string)
| wrapError (msg : string) (err : error)
| silentError.

Definition Error (e : error) : string :=
  match e with
  | errorString s => s
  | wrapError msg _ => msg
  | silentError => "SilentError"
  end.

(** [fmt.Errorf(prefix + "%w", err)] *)
Definition Errorf_w (prefix : string) (err : error) : error :=
  wrapError (prefix ++ Error err) err.

(** A Go result [(T, error)]: both components are always present, the error
    is [nil] ([None]) on success. *)
Definition goResult (T : Type) : Type := (T * option error)%type.

Definition nl : string := String (ascii_of_nat 10) EmptyString.

(** [slices.Contains] on strings *)
Definition Contains (s : list string) (v : string) : bool :=
  existsb (String.eqb v) s.

(** ** The collaborators *)

Module config.
(** The part of [config.AuthConfig] that [switchRun] calls. *)
Record AuthConfig : Type := {
  Hosts : list string;
  UsersForHost : string -> goResult (list string);
  User : string -> goResult string;
  SwitchUser : string -> string -> option error
}.

Record Config : Type := {
  Authentication : AuthConfig
}.
End config.

Module iostreams.
Record IOStreams : Type := {
  CanPrompt : bool;
  (* ColorScheme() *)
  SuccessIcon : string;
  Bold : string -> string
}.
End iostreams.

Module shared.
Record Prompt : Type := {
  Select : string -> string -> list string -> goResult Z
}.
End shared.

Module cmdutil.
Definition SilentError : error := silentError.

(** The fields of [cmdutil.Factory] that [NewCmdSwitch] reads. *)
Record Factory : Type := {
  IOStreams : iostreams.IOStreams;
  Config : goResult config.Config;
  Prompter : shared.Prompt
}.
End cmdutil.

Record SwitchOptions : Type := {
  IO : iostreams.IOStreams;
  Config : goResult config.Config;
  Prompter : shared.Prompt;
  Hostname : string;
  User : string
}.

Record hostUser : Type := {
  host : string;
  user : string;
  active : bool
}.

Definition candidates : Type := list hostUser.

(** ** Effects: a log of collaborator calls, early return and panics *)

Inductive event : Type :=
| CallConfig
| CallHosts
| CallUsersForHost (hostname : string)
| CallUser (hostname : string)
| CallCanPrompt
| CallSelect (prompt default : string) (options : list string)
| CallAuthTokenWriteable (hostname : string)
| CallSwitchUser (hostname username : string)
| ErrOut (text : string).        (* fmt.Fprint(opts.IO.ErrOut, text) *)

Inductive result (A : Type) : Type :=
| Ok (a : A)
| Return (err : error)      (* [return err] with a non-nil error *)
| Panic.                    (* index out of range *)
Arguments Ok {A} a.
Arguments Return {A} err.
Arguments Panic {A}.

Definition M (A : Type) : Type := (list event * result A)%type.

Definition ret {A} (a : A) : M A := ([], Ok a).

Definition bind {A B} (m : M A) (k : A -> M B) : M B :=
  match m with
  | (t, Ok a) => let (t', r) := k a in ((t ++ t')%list, r)
  | (t, Return e) => (t, Return e)
  | (t, Panic) => (t, Panic)
  end.

Notation "x <- m ;; k" := (bind m (fun x => k))
  (at level 61, m at next level, right associativity).
Notation "' pat <- m ;; k" := (bind m (fun x => match x with pat => k end))
  (at level 61, pat pattern, m at next level, right associativity).
Notation "m ;;; k" := (bind m (fun _ => k))
  (at level 61, right associativity).

(** a call whose outcome is [v] *)
Definition call {A} (ev : event) (v : A) : M A := ([ev], Ok v).

(** [return err] *)
Definition return_ {A} (err : error) : M A := ([], Return err).

(** [v, err := f(...); if err != nil { return err }] *)
Definition try {A} (ev : event) (r : goResult A) : M A :=
  v <- call ev r ;;
  match snd v with
  | Some err => return_ err
  | None => ret (fst v)
  end.

(** [s[i]] for a Go [int] index: panics outside [0 <= i < len(s)] *)
Definition index {A} (s : list A) (i : Z) : M A :=
  if (i <? 0)%Z then ([], Panic)
  else match nth_error s (Z.to_nat i) with
       | Some a => ret a
       | None => ([], Panic)
       end.

(** [s[i] = v] on a slice, for [i < len(s)] *)
Fixpoint store {A} (s : list A) (i : nat) (v : A) : list A :=
  match s, i with
  | [], _ => []
  | _ :: s', O => v :: s'
  | a :: s', S i' => a :: store s' i' v
  end.

(** ** The source functions *)

(** [candidates.inactiveOptions] *)
Fixpoint inactiveOptions (c : candidates) : list hostUser :=
  match c with
  | [] => []
  | candidate :: rest =>
      if negb (active candidate)
      then candidate :: inactiveOptions rest
      else inactiveOptions rest
  end.

Section SwitchRun.

(** [shared.AuthTokenWriteable] is declared outside this file; it is taken
    as given. *)
Variable AuthTokenWriteable : config.AuthConfig -> string -> string * bool.

(** lines 81-96: the checks on the flags *)
Definition preValidate (authCfg : config.AuthConfig)
    (hostname username : string) (knownHosts : list string) : M unit :=
  if Nat.eqb (length knownHosts) 0 then
    return_ (errorString "not logged in to any hosts")
  else if negb (hostname =? "") then
    if negb (Contains knownHosts hostname) then
      return_ (errorString ("not logged in to " ++ hostname))
    else if negb (username =? "") then
      r <- call (CallUsersForHost hostname) (config.UsersForHost authCfg hostname) ;;
      let knownUsers := fst r in
      if negb (Contains knownUsers username) then
        return_ (errorString ("not logged in as " ++ username ++ " on " ++ hostname))
      else ret tt
    else ret tt
  else ret tt.

(** lines 112-117: the loop over the users of one host *)
Fixpoint rangeUsers (host hostActiveUser username : string)
    (knownUsers : list string) (cands : candidates) : candidates :=
  match knownUsers with
  | [] => cands
  | user :: rest =>
      if negb (username =? "") && negb (user =? username) then
        rangeUsers host hostActiveUser username rest cands
      else
        rangeUsers host hostActiveUser username rest
          (cands ++ [ {| host := host; user := user;
                         active := (user =? hostActiveUser) |} ])%list
  end.

(** lines 100-118: the loop over the known hosts *)
Fixpoint rangeHosts (authCfg : config.AuthConfig) (hostname username : string)
    (knownHosts : list string) (cands : candidates) : M candidates :=
  match knownHosts with
  | [] => ret cands
  | host :: rest =>
      if negb (hostname =? "") && negb (host =? hostname) then
        rangeHosts authCfg hostname username rest cands
      else
        hostActiveUser <- try (CallUser host) (config.User authCfg host) ;;
        knownUsers <- try (CallUsersForHost host) (config.UsersForHost authCfg host) ;;
        rangeHosts authCfg hostname username rest
          (rangeUsers host hostActiveUser username knownUsers cands)
  end.

(** lines 98-118 *)
Definition buildCandidates (authCfg : config.AuthConfig)
    (hostname username : string) (knownHosts : list string) : M candidates :=
  rangeHosts authCfg hostname username knownHosts [].

(** lines 134-137 *)
Definition promptOf (c : hostUser) : string :=
  let prompt := user c ++ " (" ++ host c ++ ")" in
  if active c then prompt ++ " - active" else prompt.

(** lines 133-139 *)
Fixpoint rangePrompts (i : nat) (cs : candidates) (prompts : list string)
    : list string :=
  match cs with
  | [] => prompts
  | c :: rest => rangePrompts (S i) rest (store prompts i (promptOf c))
  end.

(** lines 132-139 *)
Definition makePrompts (cands : candidates) : list string :=
  rangePrompts 0 cands (repeat "" (length cands)).

(** lines 120-147: choose the target among the candidates *)
Definition disambiguate (opts : SwitchOptions) (cands : candidates)
    : M (string * string) :=
  let inactiveCandidates := inactiveOptions cands in
  if Nat.eqb (length cands) 0 then
    return_ (errorString "no user accounts matched that criteria")
  else if Nat.eqb (length cands) 1 then
    c <- index cands 0 ;;
    ret (host c, user c)
  else if Nat.eqb (length inactiveCandidates) 1 then
    c <- index inactiveCandidates 0 ;;
    ret (host c, user c)
  else
    canPrompt <- call CallCanPrompt (iostreams.CanPrompt (IO opts)) ;;
    if negb canPrompt then
      return_ (errorString "unable to determine which user account to switch to, please specify `--hostname` and `--user`")
    else
      let prompts := makePrompts cands in
      r <- call (CallSelect "What account do you want to switch to?" "" prompts)
                (shared.Select (Prompter opts)
                   "What account do you want to switch to?" "" prompts) ;;
      let selected := fst r in
      match snd r with
      | Some err => return_ (Errorf_w "could not prompt: " err)
      | None =>
          c <- index cands selected ;;
          ret (host c, user c)
      end.

(** lines 149-164: the write guard, then the switch *)
Definition commit (opts : SwitchOptions) (authCfg : config.AuthConfig)
    (hostname username : string) : M unit :=
  '(src, writeable) <- call (CallAuthTokenWriteable hostname)
                            (AuthTokenWriteable authCfg hostname) ;;
  if negb writeable then
    call (ErrOut ("The value of the " ++ src ++
            " environment variable is being used for authentication." ++ nl)) tt ;;;
    call (ErrOut ("To have GitHub CLI manage credentials instead, first clear the value from the environment." ++ nl)) tt ;;;
    return_ cmdutil.SilentError
  else
    err <- call (CallSwitchUser hostname username)
                (config.SwitchUser authCfg hostname username) ;;
    match err with
    | Some e => return_ e
    | None =>
        call (ErrOut (iostreams.SuccessIcon (IO opts) ++
                " Switched active account on " ++ hostname ++ " to '" ++
                iostreams.Bold (IO opts) username ++ "'" ++ nl)) tt ;;;
        ret tt
    end.

(** lines 80-147: everything up to the choice of the target *)
Definition resolve (opts : SwitchOptions) (authCfg : config.AuthConfig)
    : M (string * string) :=
  let hostname := Hostname opts in
  let username := User opts in
  knownHosts <- call CallHosts (config.Hosts authCfg) ;;
  preValidate authCfg hostname username knownHosts ;;;
  cands <- buildCandidates authCfg hostname username knownHosts ;;
  disambiguate opts cands.

(** [switchRun]; [Ok tt] is [return nil] *)
Definition switchRun (opts : SwitchOptions) : M unit :=
  cfg <- try CallConfig (Config opts) ;;
  let authCfg := config.Authentication cfg in
  '(hostname, username) <- resolve opts authCfg ;;
  commit opts authCfg hostname username.

End SwitchRun.

Arguments preValidate authCfg hostname username knownHosts : simpl never.

(** ** The specification's vocabulary *)

(** "the filter is set": the flag's default is the empty string *)
Definition filterSet (f : string) : Prop := f <> "".

(** an entry passes a filter when the filter is unset or equal to it *)
Definition passes (f v : string) : bool := (f =? "") || (v =? f).

(** The Candidate Set in the specification's words: the hosts that pass the
    host filter, in the store's order, each with its users that pass the user
    filter, in the store's order, flagged active when equal to the host's
    active user. *)
Definition candidateSet (authCfg : config.AuthConfig)
    (hostname username : string) (knownHosts : list string) : candidates :=
  flat_map
    (fun h =>
       map (fun u => {| host := h; user := u;
                        active := (u =? fst (config.User authCfg h)) |})
           (filter (passes username) (fst (config.UsersForHost authCfg h))))
    (filter (passes hostname) knownHosts).

(** how a candidate is presented to the Chooser, in the specification's words *)
Definition presented (c : hostUser) : string :=
  user c ++ " (" ++ host c ++ ")" ++ (if active c then " - active" else "").

(** both fetches of the store succeed on every host that is iterated *)
Definition storeReadable (authCfg : config.AuthConfig)
    (hostname : string) (knownHosts : list string) : Prop :=
  forall h, In h knownHosts -> passes hostname h = true ->
    snd (config.User authCfg h) = None /\
    snd (config.UsersForHost authCfg h) = None.

(** the calls made by the loop over the hosts when every fetch succeeds *)
Definition reads (hostname : string) (hs : list string) : list event :=
  flat_map (fun h => [CallUser h; CallUsersForHost h])
           (filter (passes hostname) hs).

(** the calls the claims speak about *)
Definition isChooser (e : event) : bool :=
  match e with CallSelect _ _ _ => true | _ => false end.

Definition isWriteGuard (e : event) : bool :=
  match e with CallAuthTokenWriteable _ => true | _ => false end.

Definition isRegister (e : event) : bool :=
  match e with CallSwitchUser _ _ => true | _ => false end.

Definition isStoreRead (e : event) : bool :=
  match e with CallUser _ | CallUsersForHost _ => true | _ => false end.

(** the calls of Steps 1 to 3 *)
Definition isResolveCall (e : event) : bool :=
  match e with
  | CallHosts | CallUser _ | CallUsersForHost _ | CallCanPrompt
  | CallSelect _ _ _ => true
  | _ => false
  end.

Definition invoked (p : event -> bool) (log : list event) : bool :=
  existsb p log.

(** two configurations hold the same snapshot of the store *)
Definition sameSnapshot (a1 a2 : config.AuthConfig) : Prop :=
  config.Hosts a1 = config.Hosts a2 /\
  (forall h, config.UsersForHost a1 h = config.UsersForHost a2 h) /\
  (forall h, config.User a1 h = config.User a2 h).

(** Steps 1 and 2 of a run: the candidate set the run arrives at Step 3 with *)
Definition gatherCandidates (opts : SwitchOptions) (authCfg : config.AuthConfig)
    : M candidates :=
  knownHosts <- call CallHosts (config.Hosts authCfg) ;;
  preValidate authCfg (Hostname opts) (User opts) knownHosts ;;;
  buildCandidates authCfg (Hostname opts) (User opts) knownHosts.

(** the log [t] followed by the run [k] *)
Definition andThen {A} (t : list event) (k : M A) : M A :=
  ((t ++ fst k)%list, snd k).

(** ** A sample store, used to run the definitions *)

Module Sample.
Definition hub : string := "github.com".
Definition ghe : string := "ghe.io".

(** github.com: alice (active), bob; ghe.io: alice (active) *)
Definition auth : config.AuthConfig := {|
  config.Hosts := [hub; ghe];
  config.UsersForHost := fun h =>
    if h =? hub then (["alice"; "bob"], None)
    else if h =? ghe then (["alice"], None)
    else ([], Some (errorString "unknown host"));
  config.User := fun h =>
    if h =? hub then ("alice", None)
    else if h =? ghe then ("alice", None)
    else ("", Some (errorString "unknown host"));
  config.SwitchUser := fun _ _ => None
|}.

(** the same logins, behind a register that refuses to switch *)
Definition readOnly : config.AuthConfig := {|
  config.Hosts := config.Hosts auth;
  config.UsersForHost := config.UsersForHost auth;
  config.User := config.User auth;
  config.SwitchUser := fun _ _ => Some (errorString "read-only configuration")
|}.

(** a store whose user list cannot be read *)
Definition broken : config.AuthConfig := {|
  config.Hosts := [hub];
  config.UsersForHost := fun _ => ([], Some (errorString "keyring locked"));
  config.User := fun _ => ("alice", None);
  config.SwitchUser := fun _ _ => None
|}.

(** two hosts, one login each, both active *)
Definition twoActive : config.AuthConfig := {|
  config.Hosts := [hub; ghe];
  config.UsersForHost := fun _ => (["alice"], None);
  config.User := fun _ => ("alice", None);
  config.SwitchUser := fun _ _ => None
|}.

(** no login at all *)
Definition empty : config.AuthConfig := {|
  config.Hosts := [];
  config.UsersForHost := fun _ => ([], None);
  config.User := fun _ => ("", None);
  config.SwitchUser := fun _ _ => None
|}.

(** the token of ghe.io comes from the environment *)
Definition writeable (_ : config.AuthConfig) (h : string) : string * bool :=
  if h =? ghe then ("GH_ENTERPRISE_TOKEN", false) else ("oauth_token", true).

Definition io (canPrompt : bool) : iostreams.IOStreams := {|
  iostreams.CanPrompt := canPrompt;
  iostreams.SuccessIcon := "v";
  iostreams.Bold := fun s => s
|}.

Definition pick (i : Z) : shared.Prompt :=
  {| shared.Select := fun _ _ _ => (i, None) |}.

Definition opts (a : config.AuthConfig) (canPrompt : bool) (i : Z)
    (h u : string) : SwitchOptions := {|
  IO := io canPrompt;
  Config := ({| config.Authentication := a |}, None);
  Prompter := pick i;
  Hostname := h;
  User := u
|}.
End Sample.

(** ** The command *)

Module cobra.
(** A string flag bound to a field of the options: [StringVarP(&opts.F, name,
    shorthand, value, usage)].  [bind] is the write through the pointer. *)
Record Flag : Type := {
  Name : string;
  Shorthand : string;
  Value : string;
  Usage : string;
  bind : string -> SwitchOptions -> SwitchOptions
}.

(** The fields of [cobra.Command] that [NewCmdSwitch] fills.  [RunE] reads
    the options variable its closure captured; that variable is its argument
    here. *)
Record Command : Type := {
  Use : string;
  Args : nat;                              (* cobra.ExactArgs(n) *)
  Short : string;
  Long : string;
  Example : string;
  Flags : list Flag;
  RunE : SwitchOptions -> list string -> M unit
}.
End cobra.

Section NewCmdSwitch.

Variable AuthTokenWriteable : config.AuthConfig -> string -> string * bool.

(** lines 25-29: the options as [NewCmdSwitch] creates them *)
Definition newOptions (f : cmdutil.Factory) : SwitchOptions := {|
  IO := cmdutil.IOStreams f;
  Config := cmdutil.Config f;
  Prompter := cmdutil.Prompter f;
  Hostname := "";
  User := ""
|}.

Definition setHostname (v : string) (o : SwitchOptions) : SwitchOptions := {|
  IO := IO o; Config := Config o; Prompter := Prompter o;
  Hostname := v; User := User o
|}.

Definition setUser (v : string) (o : SwitchOptions) : SwitchOptions := {|
  IO := IO o; Config := Config o; Prompter := Prompter o;
  Hostname := Hostname o; User := v
|}.

(** [NewCmdSwitch]; [runF] is [None] for [nil] *)
Definition NewCmdSwitch (f : cmdutil.Factory)
    (runF : option (SwitchOptions -> M unit)) : cobra.Command := {|
  cobra.Use := "switch";
  cobra.Args := 0;
  cobra.Short := "Switch to another GitHub account";
  cobra.Long := "";                        (* heredoc.Doc of the empty text *)
  cobra.Example := "";
  cobra.Flags :=
    [ {| cobra.Name := "hostname"; cobra.Shorthand := "h"; cobra.Value := "";
         cobra.Usage := "The hostname of the GitHub instance to switch account on";
         cobra.bind := setHostname |};
      {| cobra.Name := "user"; cobra.Shorthand := "u"; cobra.Value := "";
         cobra.Usage := "The user to switch to";
         cobra.bind := setUser |} ];
  cobra.RunE := fun opts args =>
    match runF with
    | Some run => run opts
    | None => switchRun AuthTokenWriteable opts
    end
|}.

End NewCmdSwitch.

(** What the flag parser leaves in the options before [RunE] is called: each
    bound field holds the value given for its flag or, when the flag is not
    given, the value the flag was declared with. *)
Fixpoint parseFlags (flags : list cobra.Flag) (given : string -> option string)
    (o : SwitchOptions) : SwitchOptions :=
  match flags with
  | [] => o
  | fl :: rest =>
      parseFlags rest given
        (cobra.bind fl
           match given (cobra.Name fl) with
           | Some v => v
           | None => cobra.Value fl
           end o)
  end.

(** the command run with the given flags and no positional argument *)
Definition runCommand (cmd : cobra.Command) (o : SwitchOptions)
    (given : string -> option string) : M unit :=
  cobra.RunE cmd (parseFlags (cobra.Flags cmd) given o) [].

(** ** More vocabulary for the properties of a run *)

(** [errors.Unwrap] *)
Definition Unwrap (e : error) : option error :=
  match e with
  | wrapError _ err => Some err
  | _ => None
  end.

(** how many calls of a kind the log holds *)
Definition calls (p : event -> bool) (log : list event) : nat :=
  length (filter p log).

(** the host a store read is about *)
Definition readHost (e : event) : option string :=
  match e with
  | CallUser h | CallUsersForHost h => Some h
  | _ => None
  end.

(** a store read that is about one of the hosts [hs] passing the host filter *)
Definition readAllowed (hostname : string) (hs : list string) (e : event)
    : Prop :=
  forall h, readHost e = Some h -> In h hs /\ passes hostname h = true.



(** a login of the store *)
Definition stored (authCfg : config.AuthConfig) (h u : string) : Prop :=
  In h (config.Hosts authCfg) /\ In u (fst (config.UsersForHost authCfg h)).

(** more sample data *)
Module Cases.
(** one host with one login *)
Definition solo : config.AuthConfig := {|
  config.Hosts := ["github.com"];
  config.UsersForHost := fun _ => (["alice"], None);
  config.User := fun _ => ("alice", None);
  config.SwitchUser := fun _ _ => None
|}.

(** a prompt that is interrupted *)
Definition interrupted : shared.Prompt :=
  {| shared.Select := fun _ _ _ => (0%Z, Some (errorString "interrupt")) |}.

Definition factory (a : config.AuthConfig) : cmdutil.Factory := {|
  cmdutil.IOStreams := Sample.io true;
  cmdutil.Config := ({| config.Authentication := a |}, None);
  cmdutil.Prompter := Sample.pick 0
|}.

(** options whose configuration cannot be loaded *)
Definition noConfig : SwitchOptions := {|
  IO := Sample.io true;
  Config := ({| config.Authentication := Sample.empty |},
             Some (errorString "cannot read config.yml"));
  Prompter := Sample.pick 0;
  Hostname := "";
  User := ""
|}.

Definition interruptedOpts : SwitchOptions := {|
  IO := Sample.io true;
  Config := ({| config.Authentication := Sample.twoActive |}, None);
  Prompter := interrupted;
  Hostname := "";
  User := ""
|}.
End Cases.

(** ** Running the code on the specification's examples *)

Example run_single_inactive :
  switchRun Sample.writeable (Sample.opts Sample.auth false 0 Sample.hub "") =
  ([CallConfig; CallHosts; CallUser "github.com"; CallUsersForHost "github.com";
    CallAuthTokenWriteable "github.com"; CallSwitchUser "github.com" "bob";
    ErrOut ("v Switched active account on github.com to 'bob'" ++ nl)],
   Ok tt).
Proof. reflexivity. Qed.

Example run_two_active_prompt :
  switchRun Sample.writeable (Sample.opts Sample.twoActive true 1 "" "") =
  ([CallConfig; CallHosts; CallUser "github.com"; CallUsersForHost "github.com";
    CallUser "ghe.io"; CallUsersForHost "ghe.io"; CallCanPrompt;
    CallSelect "What account do you want to switch to?" ""
      ["alice (github.com) - active"; "alice (ghe.io) - active"];
    CallAuthTokenWriteable "ghe.io";
    ErrOut ("The value of the GH_ENTERPRISE_TOKEN environment variable is being used for authentication." ++ nl);
    ErrOut ("To have GitHub CLI manage credentials instead, first clear the value from the environment." ++ nl)],
   Return cmdutil.SilentError).
Proof. reflexivity. Qed.

Example run_index_out_of_range :
  snd (switchRun Sample.writeable (Sample.opts Sample.twoActive true 2 "" "")) = Panic.
Proof. reflexivity. Qed.

(** ** The monad *)

Lemma bind_ok {A B} (t : list event) (a : A) (k : A -> M B) :
  bind (t, Ok a) k = andThen t (k a).
Proof. unfold bind, andThen. destruct (k a); reflexivity. Qed.

Lemma bind_return {A B} (t : list event) (e : error) (k : A -> M B) :
  bind (t, Return e) k = (t, Return e).
Proof. reflexivity. Qed.

Lemma bind_assoc {A B C} (m : M A) (k : A -> M B) (k' : B -> M C) :
  bind (bind m k) k' = bind m (fun a => bind (k a) k').
Proof.
  destruct m as [t [a | e | ]]; simpl; try reflexivity.
  destruct (k a) as [t1 [b | e | ]]; simpl; try reflexivity.
  destruct (k' b) as [t2 r]. now rewrite app_assoc.
Qed.

Lemma andThen_nil {A} (k : M A) : andThen [] k = k.
Proof. now destruct k. Qed.

Lemma andThen_app {A} (t t' : list event) (k : M A) :
  andThen (t ++ t') k = andThen t (andThen t' k).
Proof. unfold andThen; simpl. now rewrite app_assoc. Qed.

Lemma andThen_bind {A B} (t : list event) (m : M A) (k : A -> M B) :
  bind (andThen t m) k = andThen t (bind m k).
Proof.
  destruct m as [t1 [a | e | ]]; unfold andThen; simpl; try reflexivity.
  destruct (k a). simpl. now rewrite app_assoc.
Qed.

Lemma try_ok {A} (ev : event) (v : A) : try ev (v, None) = ([ev], Ok v).
Proof. reflexivity. Qed.

Lemma try_err {A} (ev : event) (v : A) (e : error) :
  try ev (v, Some e) = ([ev], Return e).
Proof. reflexivity. Qed.

Lemma try_cases {A} (ev : event) (r : goResult A) :
  (snd r = None /\ try ev r = ([ev], Ok (fst r))) \/
  (exists e, snd r = Some e /\ try ev r = ([ev], Return e)).
Proof. destruct r as [v [e | ]]; [right; exists e | left]; now split. Qed.

(** ** Strings and slices *)

Lemma Contains_In (s : list string) (v : string) :
  Contains s v = true <-> In v s.
Proof.
  unfold Contains. rewrite existsb_exists. split.
  - intros (x & Hx & E). apply String.eqb_eq in E. now subst.
  - intros H. exists v. split; [assumption | apply String.eqb_refl].
Qed.

Lemma Contains_not_In (s : list string) (v : string) :
  Contains s v = false <-> ~ In v s.
Proof.
  rewrite <- Contains_In. destruct (Contains s v); split; intros; congruence.
Qed.

Lemma set_eqb (f : string) : filterSet f -> (f =? "") = false.
Proof. intros H. now apply String.eqb_neq. Qed.

Lemma passes_set (f v : string) :
  filterSet f -> passes f v = true -> v = f.
Proof.
  intros H. unfold passes. rewrite (set_eqb _ H). simpl. apply String.eqb_eq.
Qed.

Lemma skip_passes (f v : string) :
  negb (f =? "") && negb (v =? f) = negb (passes f v).
Proof. unfold passes. now rewrite negb_orb. Qed.

Lemma append_empty (s : string) : s ++ "" = s.
Proof. induction s; simpl; congruence. Qed.

Lemma append_assoc (a b c : string) : (a ++ b) ++ c = a ++ b ++ c.
Proof. induction a; simpl; congruence. Qed.

Lemma promptOf_presented (c : hostUser) : promptOf c = presented c.
Proof.
  unfold promptOf, presented. destruct (active c).
  - now rewrite !append_assoc.
  - now rewrite append_empty.
Qed.

Lemma store_end {A} (pre : list A) (a v : A) (post : list A) :
  store (pre ++ a :: post) (length pre) v = (pre ++ v :: post)%list.
Proof. induction pre; simpl; congruence. Qed.

Lemma rangePrompts_fill (cs : candidates) (pre : list string) :
  rangePrompts (length pre) cs (pre ++ repeat "" (length cs)) =
  (pre ++ map promptOf cs)%list.
Proof.
  revert pre. induction cs as [ | c cs IH]; intros pre; simpl.
  - reflexivity.
  - rewrite store_end.
    replace (pre ++ promptOf c :: repeat "" (length cs))%list
      with ((pre ++ [promptOf c]) ++ repeat "" (length cs))%list
      by now rewrite <- app_assoc.
    replace (S (length pre)) with (length (pre ++ [promptOf c])%list)
      by (rewrite length_app; simpl; lia).
    rewrite IH. now rewrite <- app_assoc.
Qed.

Lemma makePrompts_presented (cands : candidates) :
  makePrompts cands = map presented cands.
Proof.
  unfold makePrompts. pose proof (rangePrompts_fill cands []) as H.
  simpl in H. rewrite H. apply map_ext. exact promptOf_presented.
Qed.

Lemma inactiveOptions_filter (c : candidates) :
  inactiveOptions c = filter (fun x => negb (active x)) c.
Proof. induction c as [ | x c IH]; simpl; [ | rewrite IH]; reflexivity. Qed.

Lemma inactiveOptions_app (c c' : candidates) :
  inactiveOptions (c ++ c')%list = (inactiveOptions c ++ inactiveOptions c')%list.
Proof. rewrite !inactiveOptions_filter. apply filter_app. Qed.

Lemma inactiveOptions_all_active (c : candidates) :
  Forall (fun x => active x = true) c -> inactiveOptions c = [].
Proof.
  induction 1 as [ | x c Hx _ IH]; simpl; [ | rewrite Hx; simpl]; auto.
Qed.

(** exactly one entry of the set is inactive *)
Lemma inactiveOptions_single (l1 l2 : candidates) (c : hostUser) :
  Forall (fun x => active x = true) l1 -> active c = false ->
  Forall (fun x => active x = true) l2 ->
  inactiveOptions (l1 ++ c :: l2)%list = [c].
Proof.
  intros H1 Hc H2. rewrite inactiveOptions_app. simpl.
  rewrite Hc, (inactiveOptions_all_active _ H1), (inactiveOptions_all_active _ H2).
  reflexivity.
Qed.

Open Scope list_scope.
Arguments bind {A B} m k : simpl never.
Arguments try {A} ev r : simpl never.

(** ** Step 2: the candidate set *)

Section Candidates.
Variable authCfg : config.AuthConfig.
Variables hostname username : string.

Lemma rangeUsers_spec (h a : string) (us : list string) (cs : candidates) :
  rangeUsers h a username us cs =
  cs ++ map (fun u => {| host := h; user := u; active := (u =? a)%string |})
            (filter (passes username) us).
Proof.
  revert cs. induction us as [ | u us IH]; intros cs; simpl.
  - now rewrite app_nil_r.
  - rewrite skip_passes. destruct (passes username u); simpl.
    + rewrite IH, <- app_assoc. reflexivity.
    + apply IH.
Qed.

Lemma candidateSet_nil : candidateSet authCfg hostname username [] = [].
Proof. reflexivity. Qed.

Lemma candidateSet_skip (h : string) (hs : list string) :
  passes hostname h = false ->
  candidateSet authCfg hostname username (h :: hs) =
  candidateSet authCfg hostname username hs.
Proof. intros E. unfold candidateSet. simpl. now rewrite E. Qed.

Lemma candidateSet_cons (h : string) (hs : list string) :
  passes hostname h = true ->
  candidateSet authCfg hostname username (h :: hs) =
  map (fun u => {| host := h; user := u;
                   active := (u =? fst (config.User authCfg h))%string |})
      (filter (passes username) (fst (config.UsersForHost authCfg h)))
  ++ candidateSet authCfg hostname username hs.
Proof. intros E. unfold candidateSet. simpl. now rewrite E. Qed.

Lemma rangeHosts_sound (hs : list string) :
  forall (cs : candidates) (t : list event) (r : candidates),
    rangeHosts authCfg hostname username hs cs = (t, Ok r) ->
    r = cs ++ candidateSet authCfg hostname username hs /\ t = reads hostname hs.
Proof.
  induction hs as [ | h hs IH]; intros cs t r; simpl.
  - intros [= <- <-]. now rewrite candidateSet_nil, app_nil_r.
  - rewrite skip_passes. unfold reads. simpl.
    destruct (passes hostname h) eqn:E; simpl.
    + rewrite candidateSet_cons by assumption.
      destruct (config.User authCfg h) as [a [e | ]] eqn:Ea;
        [rewrite try_err; discriminate | rewrite try_ok, bind_ok].
      destruct (config.UsersForHost authCfg h) as [us [e | ]] eqn:Eu;
        [rewrite try_err; discriminate | rewrite try_ok, bind_ok].
      rewrite rangeUsers_spec.
      destruct (rangeHosts authCfg hostname username hs _) as [t' r'] eqn:R.
      unfold andThen; simpl. intros [= <- ->].
      apply IH in R as [-> ->]. now rewrite <- app_assoc.
    + rewrite candidateSet_skip by assumption. apply IH.
Qed.

Lemma rangeHosts_ok (hs : list string) :
  storeReadable authCfg hostname hs ->
  forall cs : candidates,
    rangeHosts authCfg hostname username hs cs =
    (reads hostname hs, Ok (cs ++ candidateSet authCfg hostname username hs)).
Proof.
  induction hs as [ | h hs IH]; intros Hs cs; simpl.
  - now rewrite candidateSet_nil, app_nil_r.
  - assert (Hs' : storeReadable authCfg hostname hs)
      by (intros x Hx; apply Hs; now right).
    rewrite skip_passes. unfold reads. simpl.
    destruct (passes hostname h) eqn:E; simpl.
    + destruct (Hs h (or_introl eq_refl) E) as [Ha Hu].
      destruct (config.User authCfg h) as [a ea] eqn:Ea.
      destruct (config.UsersForHost authCfg h) as [us eu] eqn:Eu.
      simpl in Ha, Hu. subst ea eu.
      rewrite !try_ok, !bind_ok, rangeUsers_spec, (IH Hs').
      rewrite candidateSet_cons by assumption.
      rewrite ?Ea, ?Eu. unfold andThen; simpl. now rewrite <- app_assoc.
    + rewrite candidateSet_skip by assumption. now apply IH.
Qed.

(** the loop only reads the store *)
Lemma rangeHosts_log (hs : list string) (cs : candidates) :
  forallb isStoreRead (fst (rangeHosts authCfg hostname username hs cs)) = true.
Proof.
  revert cs. induction hs as [ | h hs IH]; intros cs; simpl.
  - reflexivity.
  - destruct (negb (hostname =? "")%string && negb (h =? hostname)%string);
      [apply IH | ].
    destruct (try_cases (CallUser h) (config.User authCfg h))
      as [[_ ->] | (e & _ & ->)]; [rewrite bind_ok | reflexivity].
    destruct (try_cases (CallUsersForHost h) (config.UsersForHost authCfg h))
      as [[_ ->] | (e & _ & ->)]; [rewrite bind_ok | reflexivity].
    unfold andThen; simpl. apply IH.
Qed.

Lemma rangeHosts_app (hs1 hs2 : list string) (cs : candidates) :
  rangeHosts authCfg hostname username (hs1 ++ hs2) cs =
  bind (rangeHosts authCfg hostname username hs1 cs)
       (rangeHosts authCfg hostname username hs2).
Proof.
  revert cs. induction hs1 as [ | h hs1 IH]; intros cs; simpl.
  - unfold ret. rewrite bind_ok. now rewrite andThen_nil.
  - destruct (negb (hostname =? "")%string && negb (h =? hostname)%string);
      [apply IH | ].
    destruct (try_cases (CallUser h) (config.User authCfg h))
      as [[_ ->] | (e & _ & ->)]; [rewrite !bind_ok | reflexivity].
    destruct (try_cases (CallUsersForHost h) (config.UsersForHost authCfg h))
      as [[_ ->] | (e & _ & ->)]; [rewrite !bind_ok | reflexivity].
    now rewrite IH, !andThen_bind.
Qed.

(** every entry of the candidate set passes both filters and carries the
    flag of its host's active user *)
Lemma candidateSet_entries (hs : list string) :
  Forall (fun c =>
            In (host c) hs /\
            passes hostname (host c) = true /\
            passes username (user c) = true /\
            In (user c) (fst (config.UsersForHost authCfg (host c))) /\
            active c = (user c =? fst (config.User authCfg (host c)))%string)
         (candidateSet authCfg hostname username hs).
Proof.
  apply Forall_forall. intros c Hc. unfold candidateSet in Hc.
  apply in_flat_map in Hc as (h & Hh & Hc).
  apply filter_In in Hh as [Hh Eh].
  apply in_map_iff in Hc as (u & <- & Hu).
  apply filter_In in Hu as [Hu Eu]. simpl. auto.
Qed.

End Candidates.

(** ** Step 1: the checks on the flags *)

Section PreValidate.
Variable authCfg : config.AuthConfig.
Variables hostname username : string.

Lemma preValidate_no_hosts :
  preValidate authCfg hostname username [] =
  ([], Return (errorString "not logged in to any hosts")).
Proof. reflexivity. Qed.

Lemma length_eqb_0 {A} (l : list A) : l <> [] -> Nat.eqb (length l) 0 = false.
Proof. destruct l; [congruence | reflexivity]. Qed.

Lemma preValidate_unknown_host (hs : list string) :
  hs <> [] -> filterSet hostname -> ~ In hostname hs ->
  preValidate authCfg hostname username hs =
  ([], Return (errorString ("not logged in to " ++ hostname)%string)).
Proof.
  intros Hne Hset Hin. unfold preValidate.
  rewrite (length_eqb_0 _ Hne), (set_eqb _ Hset). simpl.
  apply Contains_not_In in Hin. now rewrite Hin.
Qed.

Lemma preValidate_unknown_user (hs : list string) :
  filterSet hostname -> In hostname hs -> filterSet username ->
  ~ In username (fst (config.UsersForHost authCfg hostname)) ->
  preValidate authCfg hostname username hs =
  ([CallUsersForHost hostname],
   Return (errorString
             ("not logged in as " ++ username ++ " on " ++ hostname)%string)).
Proof.
  intros Hh Hin Hu Hnot. unfold preValidate.
  assert (Hne : hs <> []) by (intros ->; contradiction).
  rewrite (length_eqb_0 _ Hne), (set_eqb _ Hh), (set_eqb _ Hu). simpl.
  apply Contains_In in Hin. rewrite Hin. simpl.
  unfold call. rewrite bind_ok. simpl.
  apply Contains_not_In in Hnot. now rewrite Hnot.
Qed.

(** the checks read the store at most once and call nothing else *)
Lemma preValidate_log (hs : list string) :
  forallb isStoreRead (fst (preValidate authCfg hostname username hs)) = true.
Proof.
  unfold preValidate.
  destruct (Nat.eqb (length hs) 0); [reflexivity | ].
  destruct (negb (hostname =? "")%string); [ | reflexivity].
  destruct (negb (Contains hs hostname)); [reflexivity | ].
  destruct (negb (username =? "")%string); [ | reflexivity].
  unfold call. rewrite bind_ok.
  destruct (negb (Contains _ username)); reflexivity.
Qed.
End PreValidate.

Lemma preValidate_snapshot (a1 a2 : config.AuthConfig) (h u : string)
    (hs : list string) :
  sameSnapshot a1 a2 -> preValidate a1 h u hs = preValidate a2 h u hs.
Proof. intros (_ & Hu & _). unfold preValidate. now rewrite Hu. Qed.

Lemma rangeHosts_snapshot (a1 a2 : config.AuthConfig) (h u : string)
    (hs : list string) (cs : candidates) :
  sameSnapshot a1 a2 -> rangeHosts a1 h u hs cs = rangeHosts a2 h u hs cs.
Proof.
  intros (_ & Hu & Ha). revert cs.
  induction hs as [ | x hs IH]; intros cs; simpl; [reflexivity | ].
  rewrite Hu, Ha.
  destruct (negb (h =? "")%string && negb (x =? h)%string); [apply IH | ].
  destruct (try_cases (CallUser x) (config.User a2 x))
    as [[_ ->] | (e & _ & ->)]; [rewrite !bind_ok | reflexivity].
  destruct (try_cases (CallUsersForHost x) (config.UsersForHost a2 x))
    as [[_ ->] | (e & _ & ->)]; [rewrite !bind_ok | reflexivity].
  now rewrite IH.
Qed.

Lemma gatherCandidates_snapshot (o1 o2 : SwitchOptions)
    (a1 a2 : config.AuthConfig) :
  sameSnapshot a1 a2 -> Hostname o1 = Hostname o2 -> User o1 = User o2 ->
  gatherCandidates o1 a1 = gatherCandidates o2 a2.
Proof.
  intros S Hh Hu. unfold gatherCandidates, buildCandidates.
  rewrite Hh, Hu, (proj1 S). unfold call. rewrite !bind_ok. f_equal.
  rewrite (preValidate_snapshot a1 a2) by assumption.
  destruct (preValidate a2 _ _ _) as [t [[] | e | ]];
    rewrite ?bind_ok; try reflexivity.
  now rewrite (rangeHosts_snapshot a1 a2).
Qed.

(** Steps 1 and 2 only read the store *)
Lemma gatherCandidates_log (opts : SwitchOptions) (authCfg : config.AuthConfig) :
  exists t, fst (gatherCandidates opts authCfg) = CallHosts :: t /\
            forallb isStoreRead t = true.
Proof.
  unfold gatherCandidates, call. rewrite bind_ok.
  pose proof (preValidate_log authCfg (Hostname opts) (User opts)
                (config.Hosts authCfg)) as H1.
  pose proof (rangeHosts_log authCfg (Hostname opts) (User opts)
                (config.Hosts authCfg) []) as H2.
  unfold buildCandidates.
  destruct (preValidate _ _ _ _) as [t1 [[] | e | ]]; simpl in H1.
  - rewrite bind_ok.
    destruct (rangeHosts _ _ _ _ _) as [t2 r]; simpl in H2.
    exists (t1 ++ t2). split; [reflexivity | ].
    rewrite forallb_app. now rewrite H1, H2.
  - exists t1. now split.
  - exists t1. now split.
Qed.

Lemma invoked_app (p : event -> bool) (t t' : list event) :
  invoked p (t ++ t') = invoked p t || invoked p t'.
Proof. apply existsb_app. Qed.

Lemma resolve_gather (opts : SwitchOptions) (authCfg : config.AuthConfig) :
  resolve opts authCfg =
  bind (gatherCandidates opts authCfg) (disambiguate opts).
Proof.
  unfold resolve, gatherCandidates, call. rewrite !bind_ok. cbv beta.
  now rewrite andThen_bind, bind_assoc.
Qed.

(** a run that arrives at Step 3 with the candidate set [cands] *)
Lemma resolve_candidates (opts : SwitchOptions) (authCfg : config.AuthConfig)
    (t : list event) (cands : candidates) :
  gatherCandidates opts authCfg = (t, Ok cands) ->
  resolve opts authCfg = andThen t (disambiguate opts cands).
Proof. intros H. now rewrite resolve_gather, H, bind_ok. Qed.

(** ** Step 3: the choice among the candidates *)

Section Disambiguate.
Variable opts : SwitchOptions.

Lemma disambiguate_none :
  disambiguate opts [] =
  ([], Return (errorString "no user accounts matched that criteria")).
Proof. reflexivity. Qed.

Lemma disambiguate_lone (c : hostUser) :
  disambiguate opts [c] = ([], Ok (host c, user c)).
Proof. reflexivity. Qed.

Lemma length_eqb_many {A} (l : list A) :
  1 < length l ->
  Nat.eqb (length l) 0 = false /\ Nat.eqb (length l) 1 = false.
Proof. intros H. split; apply Nat.eqb_neq; lia. Qed.

Lemma disambiguate_single_inactive (cands : candidates) (c : hostUser) :
  1 < length cands -> inactiveOptions cands = [c] ->
  disambiguate opts cands = ([], Ok (host c, user c)).
Proof.
  intros Hlen Hin. unfold disambiguate.
  destruct (length_eqb_many _ Hlen) as [-> ->]. now rewrite Hin.
Qed.

Lemma disambiguate_no_prompt (cands : candidates) :
  1 < length cands -> length (inactiveOptions cands) <> 1 ->
  iostreams.CanPrompt (IO opts) = false ->
  disambiguate opts cands =
  ([CallCanPrompt],
   Return (errorString "unable to determine which user account to switch to, please specify `--hostname` and `--user`")).
Proof.
  intros Hlen Hin Hcan. unfold disambiguate.
  destruct (length_eqb_many _ Hlen) as [-> ->].
  apply Nat.eqb_neq in Hin. rewrite Hin, Hcan. reflexivity.
Qed.

Lemma index_nth {A} (s : list A) (i : Z) (a : A) :
  (0 <= i)%Z -> nth_error s (Z.to_nat i) = Some a -> index s i = ret a.
Proof.
  intros Hi Hn. unfold index. apply Z.ltb_ge in Hi. now rewrite Hi, Hn.
Qed.

Lemma disambiguate_prompt (cands : candidates) :
  1 < length cands -> length (inactiveOptions cands) <> 1 ->
  iostreams.CanPrompt (IO opts) = true ->
  disambiguate opts cands =
  andThen [CallCanPrompt;
           CallSelect "What account do you want to switch to?" ""
                      (map presented cands)]
    (let r := shared.Select (Prompter opts)
                "What account do you want to switch to?" ""
                (map presented cands) in
     match snd r with
     | Some err => return_ (Errorf_w "could not prompt: " err)
     | None => c <- index cands (fst r) ;; ret (host c, user c)
     end).
Proof.
  intros Hlen Hin Hcan. unfold disambiguate.
  destruct (length_eqb_many _ Hlen) as [-> ->].
  apply Nat.eqb_neq in Hin. rewrite Hin, Hcan, makePrompts_presented.
  unfold call. rewrite !bind_ok. cbv beta. simpl negb. cbv iota.
  rewrite ?bind_ok. now rewrite <- andThen_app.
Qed.

(** Step 3 calls neither the write guard nor the register *)
Lemma disambiguate_log (cands : candidates) :
  forallb (fun e => match e with
                    | CallCanPrompt | CallSelect _ _ _ => true
                    | _ => false
                    end)
          (fst (disambiguate opts cands)) = true.
Proof.
  unfold disambiguate.
  destruct (Nat.eqb (length cands) 0); [reflexivity | ].
  destruct (Nat.eqb (length cands) 1).
  { unfold index. destruct (0 <? 0)%Z; [reflexivity | ].
    destruct (nth_error cands _); reflexivity. }
  destruct (Nat.eqb (length (inactiveOptions cands)) 1).
  { unfold index. destruct (0 <? 0)%Z; [reflexivity | ].
    destruct (nth_error (inactiveOptions cands) _); reflexivity. }
  unfold call. rewrite bind_ok.
  destruct (iostreams.CanPrompt (IO opts)); [ | reflexivity].
  simpl negb. cbv iota. rewrite bind_ok.
  destruct (shared.Select _ _ _ _) as [i [e | ]]; [reflexivity | ].
  simpl snd. cbv iota. unfold index. simpl fst.
  destruct (i <? 0)%Z; [reflexivity | ].
  destruct (nth_error cands _); reflexivity.
Qed.
End Disambiguate.

(** ** Step 4: the write guard and the switch *)

Section Commit.
Variable AuthTokenWriteable : config.AuthConfig -> string -> string * bool.
Variable opts : SwitchOptions.
Variable authCfg : config.AuthConfig.

Lemma commit_overridden (h u src : string) :
  AuthTokenWriteable authCfg h = (src, false) ->
  commit AuthTokenWriteable opts authCfg h u =
  ([CallAuthTokenWriteable h;
    ErrOut ("The value of the " ++ src ++
            " environment variable is being used for authentication." ++ nl)%string;
    ErrOut ("To have GitHub CLI manage credentials instead, first clear the value from the environment." ++ nl)%string],
   Return cmdutil.SilentError).
Proof. intros H. unfold commit. now rewrite H. Qed.

Lemma commit_writeable (h u : string) :
  snd (AuthTokenWriteable authCfg h) = true ->
  commit AuthTokenWriteable opts authCfg h u =
  match config.SwitchUser authCfg h u with
  | Some e => ([CallAuthTokenWriteable h; CallSwitchUser h u], Return e)
  | None =>
      ([CallAuthTokenWriteable h; CallSwitchUser h u;
        ErrOut (iostreams.SuccessIcon (IO opts) ++
                " Switched active account on " ++ h ++ " to '" ++
                iostreams.Bold (IO opts) u ++ "'" ++ nl)%string],
       Ok tt)
  end.
Proof.
  intros H. unfold commit.
  destruct (AuthTokenWriteable authCfg h) as [src w]. simpl in H. subst w.
  destruct (config.SwitchUser authCfg h u); reflexivity.
Qed.

(** the whole run, once the configuration is loaded *)
Lemma switchRun_config (cfg : config.Config) :
  Config opts = (cfg, None) ->
  switchRun AuthTokenWriteable opts =
  andThen [CallConfig]
    (bind (resolve opts (config.Authentication cfg))
          (fun '(h, u) =>
             commit AuthTokenWriteable opts (config.Authentication cfg) h u)).
Proof. intros H. unfold switchRun. now rewrite H, try_ok, bind_ok. Qed.

Lemma switchRun_resolved (cfg : config.Config) (t : list event) (h u : string) :
  Config opts = (cfg, None) ->
  resolve opts (config.Authentication cfg) = (t, Ok (h, u)) ->
  switchRun AuthTokenWriteable opts =
  andThen (CallConfig :: t)
    (commit AuthTokenWriteable opts (config.Authentication cfg) h u).
Proof.
  intros Hc Hr. rewrite (switchRun_config _ Hc), Hr, bind_ok.
  now rewrite <- andThen_app.
Qed.

Lemma switchRun_failed (cfg : config.Config) (t : list event) (e : error) :
  Config opts = (cfg, None) ->
  resolve opts (config.Authentication cfg) = (t, Return e) ->
  switchRun AuthTokenWriteable opts = (CallConfig :: t, Return e).
Proof. intros Hc Hr. now rewrite (switchRun_config _ Hc), Hr. Qed.
End Commit.

(** ** Which calls a run can make *)

Lemma forallb_weaken (p q : event -> bool) (t : list event) :
  (forall e, p e = true -> q e = true) ->
  forallb p t = true -> forallb q t = true.
Proof.
  intros Hpq. induction t as [ | e t IH]; simpl; [reflexivity | ].
  intros H. apply andb_prop in H as [He Ht]. now rewrite (Hpq e He), IH.
Qed.

Lemma forallb_not_invoked (p q : event -> bool) (t : list event) :
  (forall e, p e = true -> q e = false) ->
  forallb p t = true -> invoked q t = false.
Proof.
  intros Hpq. unfold invoked. induction t as [ | e t IH]; simpl; [reflexivity | ].
  intros H. apply andb_prop in H as [He Ht]. now rewrite (Hpq e He), IH.
Qed.

Lemma resolve_log (opts : SwitchOptions) (authCfg : config.AuthConfig) :
  forallb isResolveCall (fst (resolve opts authCfg)) = true.
Proof.
  rewrite resolve_gather.
  destruct (gatherCandidates_log opts authCfg) as (t & Et & Ht).
  assert (Hg : forallb isResolveCall (fst (gatherCandidates opts authCfg)) = true).
  { rewrite Et. simpl. revert Ht. apply forallb_weaken. now intros []. }
  destruct (gatherCandidates opts authCfg) as [tg [cands | e | ]];
    simpl in Hg; try exact Hg.
  rewrite bind_ok. unfold andThen; simpl. rewrite forallb_app, Hg. simpl.
  generalize (disambiguate_log opts cands). apply forallb_weaken. now intros [].
Qed.

Lemma resolve_no_register (opts : SwitchOptions) (authCfg : config.AuthConfig) :
  invoked isRegister (fst (resolve opts authCfg)) = false.
Proof.
  apply (forallb_not_invoked isResolveCall); [now intros [] | apply resolve_log].
Qed.

Lemma gather_quiet (opts : SwitchOptions) (authCfg : config.AuthConfig)
    (p : event -> bool) :
  p CallHosts = false -> (forall e, isStoreRead e = true -> p e = false) ->
  invoked p (fst (gatherCandidates opts authCfg)) = false.
Proof.
  intros H0 Hp. destruct (gatherCandidates_log opts authCfg) as (t & -> & Ht).
  unfold invoked; simpl. rewrite H0. simpl.
  now apply (forallb_not_invoked isStoreRead).
Qed.

Lemma storeRead_not_chooser (e : event) :
  isStoreRead e = true -> isChooser e = false.
Proof. now destruct e. Qed.

Lemma storeRead_not_writeGuard (e : event) :
  isStoreRead e = true -> isWriteGuard e = false.
Proof. now destruct e. Qed.

Lemma storeRead_not_register (e : event) :
  isStoreRead e = true -> isRegister e = false.
Proof. now destruct e. Qed.

Lemma invoked_andThen {A} (p : event -> bool) (t : list event) (k : M A) :
  invoked p (fst (andThen t k)) = invoked p t || invoked p (fst k).
Proof. apply existsb_app. Qed.

Lemma gathered_quiet (opts : SwitchOptions) (authCfg : config.AuthConfig)
    (p : event -> bool) (t : list event) (r : result candidates) :
  p CallConfig = false -> p CallHosts = false ->
  (forall e, isStoreRead e = true -> p e = false) ->
  gatherCandidates opts authCfg = (t, r) ->
  invoked p (CallConfig :: t) = false.
Proof.
  intros Hc H0 Hp Hg. pose proof (gather_quiet opts authCfg p H0 Hp) as Hq.
  rewrite Hg in Hq. unfold invoked in *. simpl in *. now rewrite Hc, Hq.
Qed.

Lemma commit_no_chooser (W : config.AuthConfig -> string -> string * bool)
    (opts : SwitchOptions) (authCfg : config.AuthConfig) (h u : string) :
  invoked isChooser (fst (commit W opts authCfg h u)) = false.
Proof.
  unfold commit. destruct (W authCfg h) as [src []]; [ | reflexivity].
  unfold call. rewrite bind_ok. cbv beta iota. simpl negb. cbv iota.
  rewrite bind_ok. destruct (config.SwitchUser authCfg h u); reflexivity.
Qed.

(** ** The claims *)

Section Claims.
Variable AuthTokenWriteable : config.AuthConfig -> string -> string * bool.

(** C1. When a run arrives at Step 3 with more than one candidate, exactly
    one of which has [active = false], it resolves to that entry: Step 3
    makes no call at all, the Chooser is not invoked anywhere in the run,
    and the run goes on with the write guard and the switch for that
    entry's host and user.  The shortcut needs two candidates: a lone
    candidate is taken by the single-candidate rule whatever its flag, and
    an empty set fails before the inactive entries are looked at. *)
Theorem single_inactive_shortcut
    (opts : SwitchOptions) (cfg : config.Config) (t : list event)
    (cands : candidates) :
  Config opts = (cfg, None) ->
  gatherCandidates opts (config.Authentication cfg) = (t, Ok cands) ->
  (forall (l1 l2 : candidates) (c : hostUser),
      cands = l1 ++ c :: l2 -> 1 < length cands ->
      Forall (fun x => active x = true) l1 -> active c = false ->
      Forall (fun x => active x = true) l2 ->
      disambiguate opts cands = ([], Ok (host c, user c)) /\
      resolve opts (config.Authentication cfg) = (t, Ok (host c, user c)) /\
      switchRun AuthTokenWriteable opts =
        andThen (CallConfig :: t)
          (commit AuthTokenWriteable opts (config.Authentication cfg) (host c) (user c)) /\
      invoked isChooser (fst (switchRun AuthTokenWriteable opts)) = false) /\
  (forall c : hostUser,
      cands = [c] ->
      disambiguate opts cands = ([], Ok (host c, user c)) /\
      resolve opts (config.Authentication cfg) = (t, Ok (host c, user c))) /\
  (cands = [] ->
      exists e, resolve opts (config.Authentication cfg) = (t, Return e)).
Proof.
  intros Hc Hg. pose proof (resolve_candidates _ _ _ _ Hg) as Hr.
  split; [ | split].
  - intros l1 l2 c -> Hlen H1 Hf H2.
    pose proof (inactiveOptions_single l1 l2 c H1 Hf H2) as Hin.
    pose proof (disambiguate_single_inactive opts _ c Hlen Hin) as Hd.
    rewrite Hd in Hr. unfold andThen in Hr; simpl in Hr.
    rewrite app_nil_r in Hr.
    split; [exact Hd | split; [exact Hr | ] ].
    rewrite (switchRun_resolved AuthTokenWriteable opts cfg _ _ _ Hc Hr).
    split; [reflexivity | ].
    rewrite invoked_andThen, commit_no_chooser.
    now rewrite (gathered_quiet opts _ isChooser t _ eq_refl eq_refl
                   storeRead_not_chooser Hg).
  - intros c ->. rewrite disambiguate_lone in Hr |- *.
    unfold andThen in Hr; simpl in Hr. rewrite app_nil_r in Hr. now split.
  - intros ->. rewrite disambiguate_none in Hr.
    unfold andThen in Hr; simpl in Hr. rewrite app_nil_r in Hr. eauto.
Qed.

(** C2, as amended.  When a run arrives at Step 3 with exactly one candidate,
    it resolves to that entry whatever its [active] flag, already active or
    not, and goes on to Step 4 with it: if the write guard lets the host through,
    [SwitchUser] is called with that host and user, and the run returns
    what [SwitchUser] returns, hence [nil] when the register accepts. *)
Theorem lone_candidate_switches
    (opts : SwitchOptions) (cfg : config.Config) (t : list event)
    (c : hostUser) :
  Config opts = (cfg, None) ->
  gatherCandidates opts (config.Authentication cfg) = (t, Ok [c]) ->
  resolve opts (config.Authentication cfg) = (t, Ok (host c, user c)) /\
  switchRun AuthTokenWriteable opts =
    andThen (CallConfig :: t)
      (commit AuthTokenWriteable opts (config.Authentication cfg) (host c) (user c)) /\
  (snd (AuthTokenWriteable (config.Authentication cfg) (host c)) = true ->
   In (CallSwitchUser (host c) (user c)) (fst (switchRun AuthTokenWriteable opts)) /\
   snd (switchRun AuthTokenWriteable opts) =
     match config.SwitchUser (config.Authentication cfg) (host c) (user c) with
     | Some e => Return e
     | None => Ok tt
     end).
Proof.
  intros Hc Hg. pose proof (resolve_candidates _ _ _ _ Hg) as Hr.
  rewrite disambiguate_lone in Hr. unfold andThen in Hr; simpl in Hr.
  rewrite app_nil_r in Hr.
  pose proof (switchRun_resolved AuthTokenWriteable opts cfg _ _ _ Hc Hr) as Hs.
  split; [exact Hr | split; [exact Hs | ] ].
  intros Hw. rewrite Hs, (commit_writeable _ _ _ _ _ Hw).
  destruct (config.SwitchUser _ _ _); unfold andThen; simpl; split;
    try reflexivity; right; apply in_or_app; right; simpl; auto.
Qed.

(** C3. The candidate set that Step 2 builds is the specification's: the
    hosts that pass the host filter, in the store's order, each with its
    users that pass the user filter, in the store's order.  Every entry
    has the filtered host when the host filter is set, the filtered user
    when the user filter is set, and is flagged active exactly when its
    user is the active user of its host.  The set is built whenever both
    fetches succeed on the hosts that pass the host filter. *)
Theorem candidate_set_invariant
    (authCfg : config.AuthConfig) (hostname username : string)
    (knownHosts : list string) :
  (storeReadable authCfg hostname knownHosts ->
   buildCandidates authCfg hostname username knownHosts =
     (reads hostname knownHosts,
      Ok (candidateSet authCfg hostname username knownHosts))) /\
  (forall (t : list event) (cands : candidates),
     buildCandidates authCfg hostname username knownHosts = (t, Ok cands) ->
     cands = candidateSet authCfg hostname username knownHosts /\
     Forall (fun c =>
               (filterSet hostname -> host c = hostname) /\
               (filterSet username -> user c = username) /\
               active c = (user c =? fst (config.User authCfg (host c)))%string)
            cands).
Proof.
  split.
  - intros Hs. unfold buildCandidates. now rewrite rangeHosts_ok.
  - intros t cands H. apply rangeHosts_sound in H as [-> _]. simpl.
    split; [reflexivity | ].
    generalize (candidateSet_entries authCfg hostname username knownHosts).
    apply Forall_impl. intros c (_ & Hh & Hu & _ & Ha).
    split; [ | split]; [intros Hs | intros Hs | exact Ha];
      eapply passes_set; eassumption.
Qed.

(** C4. When a run arrives at Step 3 with more than one candidate and the
    number of inactive ones is not one: without a prompt surface the run
    fails with the ambiguous-selection error and the Chooser is not
    invoked; with one, the Chooser is invoked once with the candidates
    presented as "<user> (<host>)", followed by " - active" for the active
    ones, in the order of the set, and the run resolves to the entry at
    the index the Chooser returns. *)
Theorem ambiguous_choice
    (opts : SwitchOptions) (cfg : config.Config) (t : list event)
    (cands : candidates) :
  Config opts = (cfg, None) ->
  gatherCandidates opts (config.Authentication cfg) = (t, Ok cands) ->
  1 < length cands ->
  length (filter (fun c => negb (active c)) cands) <> 1 ->
  (iostreams.CanPrompt (IO opts) = false ->
   switchRun AuthTokenWriteable opts =
     (CallConfig :: t ++ [CallCanPrompt],
      Return (errorString "unable to determine which user account to switch to, please specify `--hostname` and `--user`")) /\
   invoked isChooser (fst (switchRun AuthTokenWriteable opts)) = false) /\
  (iostreams.CanPrompt (IO opts) = true ->
   forall (i : Z) (c : hostUser),
     shared.Select (Prompter opts) "What account do you want to switch to?" ""
                   (map presented cands) = (i, None) ->
     (0 <= i)%Z -> nth_error cands (Z.to_nat i) = Some c ->
     resolve opts (config.Authentication cfg) =
       (t ++ [CallCanPrompt;
              CallSelect "What account do you want to switch to?" ""
                         (map presented cands)],
        Ok (host c, user c)) /\
     switchRun AuthTokenWriteable opts =
       andThen (CallConfig :: t ++
                [CallCanPrompt;
                 CallSelect "What account do you want to switch to?" ""
                            (map presented cands)])
         (commit AuthTokenWriteable opts (config.Authentication cfg)
                 (host c) (user c))).
Proof.
  intros Hc Hg Hlen Hin. rewrite <- inactiveOptions_filter in Hin.
  pose proof (resolve_candidates _ _ _ _ Hg) as Hr. split.
  - intros Hcan. rewrite (disambiguate_no_prompt opts _ Hlen Hin Hcan) in Hr.
    unfold andThen in Hr; simpl in Hr.
    rewrite (switchRun_failed AuthTokenWriteable opts cfg _ _ Hc Hr).
    split; [reflexivity | ]. simpl fst.
    change (CallConfig :: t ++ [CallCanPrompt])
      with ((CallConfig :: t) ++ [CallCanPrompt]).
    rewrite invoked_app.
    now rewrite (gathered_quiet opts _ isChooser t _ eq_refl eq_refl
                   storeRead_not_chooser Hg).
  - intros Hcan i c Hsel Hi Hnth.
    rewrite (disambiguate_prompt opts _ Hlen Hin Hcan), Hsel in Hr.
    simpl in Hr. rewrite (index_nth _ _ _ Hi Hnth) in Hr.
    unfold ret in Hr. rewrite bind_ok in Hr.
    unfold andThen in Hr; simpl in Hr.
    split; [exact Hr | ].
    now rewrite (switchRun_resolved AuthTokenWriteable opts cfg _ _ _ Hc Hr).
Qed.

(** C5. When a run has resolved a host and user and the write guard reports
    the host's token as not writeable, the run prints the diagnostic that
    names the source (the environment variable), returns
    [cmdutil.SilentError], and never calls [SwitchUser]. *)
Theorem write_guard_blocks
    (opts : SwitchOptions) (cfg : config.Config) (t : list event)
    (h u src : string) :
  Config opts = (cfg, None) ->
  resolve opts (config.Authentication cfg) = (t, Ok (h, u)) ->
  AuthTokenWriteable (config.Authentication cfg) h = (src, false) ->
  switchRun AuthTokenWriteable opts =
    (CallConfig :: t ++
     [CallAuthTokenWriteable h;
      ErrOut ("The value of the " ++ src ++
              " environment variable is being used for authentication." ++ nl)%string;
      ErrOut ("To have GitHub CLI manage credentials instead, first clear the value from the environment." ++ nl)%string],
     Return cmdutil.SilentError) /\
  invoked isRegister (fst (switchRun AuthTokenWriteable opts)) = false.
Proof.
  intros Hc Hr Hw.
  rewrite (switchRun_resolved AuthTokenWriteable opts cfg _ _ _ Hc Hr).
  rewrite (commit_overridden AuthTokenWriteable opts _ h u src Hw).
  split; [reflexivity | ].
  rewrite invoked_andThen.
  pose proof (resolve_no_register opts (config.Authentication cfg)) as Hn.
  rewrite Hr in Hn. simpl fst in Hn. unfold invoked in *. simpl.
  now rewrite Hn.
Qed.

(** C6. Step 1 comes before any read of the logins: with no known host the
    run fails with "not logged in to any hosts"; otherwise, with a host
    filter that is not a known host, it fails with "not logged in to
    <host>".  In both cases the run has only loaded the configuration and
    listed the hosts: no user was fetched, and neither the Chooser, the
    write guard nor the register was called. *)
Theorem prevalidate_hosts (opts : SwitchOptions) (cfg : config.Config) :
  Config opts = (cfg, None) ->
  (config.Hosts (config.Authentication cfg) = [] ->
   switchRun AuthTokenWriteable opts =
     ([CallConfig; CallHosts],
      Return (errorString "not logged in to any hosts"))) /\
  (config.Hosts (config.Authentication cfg) <> [] ->
   filterSet (Hostname opts) ->
   ~ In (Hostname opts) (config.Hosts (config.Authentication cfg)) ->
   switchRun AuthTokenWriteable opts =
     ([CallConfig; CallHosts],
      Return (errorString ("not logged in to " ++ Hostname opts)%string))) /\
  ((config.Hosts (config.Authentication cfg) = [] \/
    (filterSet (Hostname opts) /\
     ~ In (Hostname opts) (config.Hosts (config.Authentication cfg)))) ->
   fst (switchRun AuthTokenWriteable opts) = [CallConfig; CallHosts] /\
   invoked isStoreRead (fst (switchRun AuthTokenWriteable opts)) = false /\
   invoked isChooser (fst (switchRun AuthTokenWriteable opts)) = false /\
   invoked isRegister (fst (switchRun AuthTokenWriteable opts)) = false).
Proof.
  intros Hc.
  assert (Hfail : forall e,
    preValidate (config.Authentication cfg) (Hostname opts) (User opts)
      (config.Hosts (config.Authentication cfg)) = ([], Return e) ->
    switchRun AuthTokenWriteable opts = ([CallConfig; CallHosts], Return e)).
  { intros e Hp. apply (switchRun_failed _ _ cfg); [exact Hc | ].
    unfold resolve, call. now rewrite bind_ok, Hp. }
  assert (H1 : config.Hosts (config.Authentication cfg) = [] ->
               switchRun AuthTokenWriteable opts =
               ([CallConfig; CallHosts],
                Return (errorString "not logged in to any hosts"))).
  { intros He. apply Hfail. rewrite He. apply preValidate_no_hosts. }
  assert (H2 : config.Hosts (config.Authentication cfg) <> [] ->
               filterSet (Hostname opts) ->
               ~ In (Hostname opts) (config.Hosts (config.Authentication cfg)) ->
               switchRun AuthTokenWriteable opts =
               ([CallConfig; CallHosts],
                Return (errorString ("not logged in to " ++ Hostname opts)%string))).
  { intros Hne Hs Hn. apply Hfail. now apply preValidate_unknown_host. }
  split; [exact H1 | split; [exact H2 | ] ].
  intros [He | [Hs Hn] ].
  - now rewrite (H1 He).
  - destruct (config.Hosts (config.Authentication cfg)) eqn:E.
    + now rewrite (H1 eq_refl).
    + now rewrite (H2 ltac:(discriminate) Hs Hn).
Qed.

(** C7. With both filters set and the host filter among the known hosts,
    Step 1 fetches the users of that host and, when the user filter is not
    among them, the run fails at once with "not logged in as <user> on
    <host>".  The check is redundant with Steps 2 and 3: in the same
    situation Step 2, if it gets through, builds the empty set, on which
    Step 3 fails with the no-match error. *)
Theorem prevalidate_user (opts : SwitchOptions) (cfg : config.Config) :
  Config opts = (cfg, None) ->
  filterSet (Hostname opts) -> filterSet (User opts) ->
  In (Hostname opts) (config.Hosts (config.Authentication cfg)) ->
  ~ In (User opts)
       (fst (config.UsersForHost (config.Authentication cfg) (Hostname opts))) ->
  switchRun AuthTokenWriteable opts =
    ([CallConfig; CallHosts; CallUsersForHost (Hostname opts)],
     Return (errorString ("not logged in as " ++ User opts ++ " on " ++
                          Hostname opts)%string)) /\
  (forall (t : list event) (cands : candidates),
     buildCandidates (config.Authentication cfg) (Hostname opts) (User opts)
       (config.Hosts (config.Authentication cfg)) = (t, Ok cands) ->
     cands = [] /\
     disambiguate opts cands =
       ([], Return (errorString "no user accounts matched that criteria"))).
Proof.
  intros Hc Hh Hu Hin Hnot. split.
  - apply (switchRun_failed _ _ cfg); [exact Hc | ].
    unfold resolve, call. rewrite bind_ok.
    now rewrite (preValidate_unknown_user _ _ _ _ Hh Hin Hu Hnot).
  - intros t cands Hb. apply rangeHosts_sound in Hb as [-> _]. simpl.
    assert (E : candidateSet (config.Authentication cfg) (Hostname opts)
                  (User opts) (config.Hosts (config.Authentication cfg)) = []).
    { pose proof (candidateSet_entries (config.Authentication cfg)
                    (Hostname opts) (User opts)
                    (config.Hosts (config.Authentication cfg))) as Hall.
      destruct (candidateSet _ _ _ _) as [ | c l]; [reflexivity | exfalso].
      inversion Hall as [ | ? ? (_ & Ph & Pu & Iu & _) _]; subst.
      apply (passes_set _ _ Hh) in Ph. apply (passes_set _ _ Hu) in Pu.
      rewrite Ph, Pu in Iu. contradiction. }
    rewrite E. split; [reflexivity | apply disambiguate_none].
Qed.

(** C8. In Step 2, on a host that the loop reaches and that passes the host
    filter, an error of the active-user fetch, or else of the
    users-for-host fetch, ends the run there: the run returns that very
    error, the failing fetch is the last call made, and the Chooser, the
    write guard and the register are not called. *)
Theorem store_error_aborts
    (opts : SwitchOptions) (cfg : config.Config) (t0 t1 : list event)
    (hs1 hs2 : list string) (h : string) (cs1 : candidates) (e : error) :
  Config opts = (cfg, None) ->
  preValidate (config.Authentication cfg) (Hostname opts) (User opts)
    (config.Hosts (config.Authentication cfg)) = (t0, Ok tt) ->
  config.Hosts (config.Authentication cfg) = hs1 ++ h :: hs2 ->
  passes (Hostname opts) h = true ->
  rangeHosts (config.Authentication cfg) (Hostname opts) (User opts) hs1 []
    = (t1, Ok cs1) ->
  (snd (config.User (config.Authentication cfg) h) = Some e \/
   (snd (config.User (config.Authentication cfg) h) = None /\
    snd (config.UsersForHost (config.Authentication cfg) h) = Some e)) ->
  switchRun AuthTokenWriteable opts =
    (CallConfig :: CallHosts :: t0 ++ t1 ++
     CallUser h ::
       match snd (config.User (config.Authentication cfg) h) with
       | Some _ => []
       | None => [CallUsersForHost h]
       end,
     Return e) /\
  invoked isChooser (fst (switchRun AuthTokenWriteable opts)) = false /\
  invoked isWriteGuard (fst (switchRun AuthTokenWriteable opts)) = false /\
  invoked isRegister (fst (switchRun AuthTokenWriteable opts)) = false.
Proof.
  intros Hc Hp Hhs Hpass Hr1 Herr.
  set (a := config.Authentication cfg) in *.
  set (tf := CallUser h :: match snd (config.User a h) with
                           | Some _ => []
                           | None => [CallUsersForHost h]
                           end).
  assert (Hstep : forall cs,
            rangeHosts a (Hostname opts) (User opts) (h :: hs2) cs
            = (tf, Return e)).
  { intros cs. simpl. rewrite skip_passes, Hpass. simpl. subst tf.
    destruct (config.User a h) as [v ea]. simpl in *.
    destruct Herr as [-> | [-> Hu] ].
    - now rewrite try_err.
    - rewrite try_ok, bind_ok.
      destruct (config.UsersForHost a h) as [us eu]. simpl in Hu. subst eu.
      now rewrite try_err. }
  assert (Hb : buildCandidates a (Hostname opts) (User opts) (config.Hosts a)
               = (t1 ++ tf, Return e)).
  { unfold buildCandidates. rewrite Hhs, rangeHosts_app, Hr1, bind_ok.
    now rewrite Hstep. }
  assert (Hg : gatherCandidates opts a
               = (CallHosts :: t0 ++ t1 ++ tf, Return e)).
  { unfold gatherCandidates, call. now rewrite bind_ok, Hp, bind_ok, Hb. }
  assert (Hres : resolve opts a = (CallHosts :: t0 ++ t1 ++ tf, Return e)).
  { now rewrite resolve_gather, Hg. }
  rewrite (switchRun_failed AuthTokenWriteable opts cfg _ _ Hc Hres).
  simpl fst. split; [reflexivity | ].
  split; [ | split].
  - apply (gathered_quiet opts a isChooser _ _ eq_refl eq_refl
             storeRead_not_chooser Hg).
  - apply (gathered_quiet opts a isWriteGuard _ _ eq_refl eq_refl
             storeRead_not_writeGuard Hg).
  - apply (gathered_quiet opts a isRegister _ _ eq_refl eq_refl
             storeRead_not_register Hg).
Qed.

(** C9. Resolution is a function of the store snapshot and the two filters
    on every path that does not reach the Chooser: two runs over
    configurations that hold the same hosts, users and active users, with
    the same filters, whatever their prompters and terminals, make the
    same calls and end with the same (host, user) or the same error,
    provided neither invokes the Chooser. *)
Theorem resolution_deterministic
    (o1 o2 : SwitchOptions) (a1 a2 : config.AuthConfig) :
  sameSnapshot a1 a2 ->
  Hostname o1 = Hostname o2 -> User o1 = User o2 ->
  invoked isChooser (fst (resolve o1 a1)) = false ->
  invoked isChooser (fst (resolve o2 a2)) = false ->
  resolve o1 a1 = resolve o2 a2.
Proof.
  intros S Hh Hu. rewrite !resolve_gather.
  rewrite (gatherCandidates_snapshot o1 o2 a1 a2 S Hh Hu).
  destruct (gatherCandidates o2 a2) as [t [cands | e | ] ];
    [ | reflexivity | reflexivity].
  rewrite !bind_ok, !invoked_andThen. intros N1 N2.
  apply orb_false_elim in N1 as [_ N1]. apply orb_false_elim in N2 as [_ N2].
  f_equal. revert N1 N2. unfold disambiguate.
  destruct (Nat.eqb (length cands) 0); [reflexivity | ].
  destruct (Nat.eqb (length cands) 1); [reflexivity | ].
  destruct (Nat.eqb (length (inactiveOptions cands)) 1); [reflexivity | ].
  unfold call. rewrite !bind_ok.
  destruct (iostreams.CanPrompt (IO o1)), (iostreams.CanPrompt (IO o2));
    simpl negb; cbv iota; rewrite ?bind_ok, ?invoked_andThen;
    try discriminate; reflexivity.
Qed.

(** C10. In the Step-1 check with both filters set, the error of the
    users-for-host fetch is dropped: when the fetch fails and the user
    filter is not in the list it returned, the run reports "not logged in
    as <user> on <host>", not the store's error.  The same failing fetch in
    Step 2 is returned as it is. *)
Theorem precheck_discards_store_error
    (opts : SwitchOptions) (cfg : config.Config) (us : list string)
    (e : error) :
  Config opts = (cfg, None) ->
  filterSet (Hostname opts) -> filterSet (User opts) ->
  In (Hostname opts) (config.Hosts (config.Authentication cfg)) ->
  config.UsersForHost (config.Authentication cfg) (Hostname opts)
    = (us, Some e) ->
  ~ In (User opts) us ->
  switchRun AuthTokenWriteable opts =
    ([CallConfig; CallHosts; CallUsersForHost (Hostname opts)],
     Return (errorString ("not logged in as " ++ User opts ++ " on " ++
                          Hostname opts)%string)) /\
  (snd (config.User (config.Authentication cfg) (Hostname opts)) = None ->
   snd (buildCandidates (config.Authentication cfg) (Hostname opts) (User opts)
          (config.Hosts (config.Authentication cfg))) = Return e).
Proof.
  intros Hc Hh Hu Hin Hf Hnot. split.
  - apply (switchRun_failed _ _ cfg); [exact Hc | ].
    unfold resolve, call. rewrite bind_ok.
    rewrite (preValidate_unknown_user _ _ _ _ Hh Hin Hu); [reflexivity | ].
    now rewrite Hf.
  - intros Ha. unfold buildCandidates. generalize (@nil hostUser).
    induction (config.Hosts (config.Authentication cfg)) as [ | x hs IH];
      intros cs; [contradiction | ].
    simpl. rewrite skip_passes.
    destruct (passes (Hostname opts) x) eqn:P; simpl.
    + apply (passes_set _ _ Hh) in P. subst x.
      destruct (config.User _ (Hostname opts)) as [v ea]. simpl in Ha. subst ea.
      now rewrite try_ok, bind_ok, Hf, try_err.
    + destruct Hin as [-> | Hin].
      * unfold passes in P. rewrite String.eqb_refl, orb_true_r in P.
        discriminate.
      * now apply IH.
Qed.

End Claims.

(** ** The claims on the sample stores *)

Lemma single_inactive_shortcut_witness :
  Config (Sample.opts Sample.auth false 0 Sample.hub "") =
    ({| config.Authentication := Sample.auth |}, None) /\
  gatherCandidates (Sample.opts Sample.auth false 0 Sample.hub "") Sample.auth =
    ([CallHosts; CallUser "github.com"; CallUsersForHost "github.com"],
     Ok [ {| host := "github.com"; user := "alice"; active := true |};
          {| host := "github.com"; user := "bob"; active := false |} ]) /\
  resolve (Sample.opts Sample.auth false 0 Sample.hub "") Sample.auth =
    ([CallHosts; CallUser "github.com"; CallUsersForHost "github.com"],
     Ok ("github.com", "bob")) /\
  invoked isChooser
    (fst (switchRun Sample.writeable
            (Sample.opts Sample.auth false 0 Sample.hub ""))) = false.
Proof.
  destruct (single_inactive_shortcut Sample.writeable
              (Sample.opts Sample.auth false 0 Sample.hub "")
              {| config.Authentication := Sample.auth |}
              [CallHosts; CallUser "github.com"; CallUsersForHost "github.com"]
              [ {| host := "github.com"; user := "alice"; active := true |};
                {| host := "github.com"; user := "bob"; active := false |} ]
              eq_refl eq_refl) as (H & _ & _).
  destruct (H [ {| host := "github.com"; user := "alice"; active := true |} ] []
              {| host := "github.com"; user := "bob"; active := false |}
              eq_refl) as (_ & Hr & _ & Hn).
  - simpl; lia.
  - repeat constructor.
  - reflexivity.
  - constructor.
  - repeat split; assumption.
Defined.

(** C2 as worded does not hold: a lone candidate does not always reach
    [SwitchUser].  With the host filter on ghe.io the only candidate is
    alice, already active there; the token of ghe.io comes from the
    environment, so the write guard stops the run with
    [cmdutil.SilentError] before any [SwitchUser] call. *)
Lemma lone_candidate_switches_counterexample :
  ~ (forall (W : config.AuthConfig -> string -> string * bool)
            (opts : SwitchOptions) (cfg : config.Config) (t : list event)
            (c : hostUser),
       Config opts = (cfg, None) ->
       gatherCandidates opts (config.Authentication cfg) = (t, Ok [c]) ->
       In (CallSwitchUser (host c) (user c)) (fst (switchRun W opts)) /\
       snd (switchRun W opts) = Ok tt).
Proof.
  intros H.
  destruct (H Sample.writeable
              (Sample.opts Sample.auth false 0 Sample.ghe "")
              {| config.Authentication := Sample.auth |}
              [CallHosts; CallUser "ghe.io"; CallUsersForHost "ghe.io"]
              {| host := "ghe.io"; user := "alice"; active := true |}
              eq_refl eq_refl) as [_ S].
  discriminate S.
Qed.

Example run_lone_active_overridden :
  switchRun Sample.writeable (Sample.opts Sample.auth false 0 Sample.ghe "") =
  ([CallConfig; CallHosts; CallUser "ghe.io"; CallUsersForHost "ghe.io";
    CallAuthTokenWriteable "ghe.io";
    ErrOut ("The value of the GH_ENTERPRISE_TOKEN environment variable is being used for authentication." ++ nl)%string;
    ErrOut ("To have GitHub CLI manage credentials instead, first clear the value from the environment." ++ nl)%string],
   Return cmdutil.SilentError).
Proof. reflexivity. Qed.

Lemma lone_candidate_switches_witness :
  Config (Sample.opts Sample.auth false 0 Sample.hub "alice") =
    ({| config.Authentication := Sample.auth |}, None) /\
  gatherCandidates (Sample.opts Sample.auth false 0 Sample.hub "alice")
    Sample.auth =
    ([CallHosts; CallUsersForHost "github.com"; CallUser "github.com";
      CallUsersForHost "github.com"],
     Ok [ {| host := "github.com"; user := "alice"; active := true |} ]) /\
  snd (Sample.writeable Sample.auth "github.com") = true /\
  In (CallSwitchUser "github.com" "alice")
     (fst (switchRun Sample.writeable
             (Sample.opts Sample.auth false 0 Sample.hub "alice"))) /\
  snd (switchRun Sample.writeable
         (Sample.opts Sample.auth false 0 Sample.hub "alice")) = Ok tt.
Proof.
  destruct (lone_candidate_switches Sample.writeable
              (Sample.opts Sample.auth false 0 Sample.hub "alice")
              {| config.Authentication := Sample.auth |}
              [CallHosts; CallUsersForHost "github.com"; CallUser "github.com";
               CallUsersForHost "github.com"]
              {| host := "github.com"; user := "alice"; active := true |}
              eq_refl eq_refl) as (_ & _ & H).
  destruct (H eq_refl) as [Hin Hs].
  repeat split; assumption.
Defined.

Lemma candidate_set_invariant_witness :
  storeReadable Sample.auth "" [Sample.hub; Sample.ghe] /\
  buildCandidates Sample.auth "" "" [Sample.hub; Sample.ghe] =
    ([CallUser "github.com"; CallUsersForHost "github.com";
      CallUser "ghe.io"; CallUsersForHost "ghe.io"],
     Ok [ {| host := "github.com"; user := "alice"; active := true |};
          {| host := "github.com"; user := "bob"; active := false |};
          {| host := "ghe.io"; user := "alice"; active := true |} ]) /\
  Forall (fun c =>
            (filterSet "ghe.io" -> host c = "ghe.io") /\
            (filterSet "" -> user c = "") /\
            active c = (user c =? fst (config.User Sample.auth (host c)))%string)
         [ {| host := "ghe.io"; user := "alice"; active := true |} ].
Proof.
  assert (R : storeReadable Sample.auth "" [Sample.hub; Sample.ghe]).
  { intros h [<- | [<- | [] ] ] _; split; reflexivity. }
  split; [exact R | split].
  - exact (proj1 (candidate_set_invariant Sample.auth "" ""
                    [Sample.hub; Sample.ghe]) R).
  - exact (proj2 (proj2 (candidate_set_invariant Sample.auth "ghe.io" ""
                           [Sample.hub; Sample.ghe])
                    [CallUser "ghe.io"; CallUsersForHost "ghe.io"]
                    [ {| host := "ghe.io"; user := "alice"; active := true |} ]
                    eq_refl)).
Defined.

Lemma ambiguous_choice_witness :
  Config (Sample.opts Sample.twoActive true 1 "" "") =
    ({| config.Authentication := Sample.twoActive |}, None) /\
  gatherCandidates (Sample.opts Sample.twoActive true 1 "" "") Sample.twoActive =
    ([CallHosts; CallUser "github.com"; CallUsersForHost "github.com";
      CallUser "ghe.io"; CallUsersForHost "ghe.io"],
     Ok [ {| host := "github.com"; user := "alice"; active := true |};
          {| host := "ghe.io"; user := "alice"; active := true |} ]) /\
  resolve (Sample.opts Sample.twoActive true 1 "" "") Sample.twoActive =
    ([CallHosts; CallUser "github.com"; CallUsersForHost "github.com";
      CallUser "ghe.io"; CallUsersForHost "ghe.io"; CallCanPrompt;
      CallSelect "What account do you want to switch to?" ""
        ["alice (github.com) - active"; "alice (ghe.io) - active"] ],
     Ok ("ghe.io", "alice")) /\
  switchRun Sample.writeable (Sample.opts Sample.twoActive false 1 "" "") =
    ([CallConfig; CallHosts; CallUser "github.com"; CallUsersForHost "github.com";
      CallUser "ghe.io"; CallUsersForHost "ghe.io"; CallCanPrompt],
     Return (errorString "unable to determine which user account to switch to, please specify `--hostname` and `--user`")).
Proof.
  split; [reflexivity | split; [reflexivity | split] ].
  - destruct (ambiguous_choice Sample.writeable
                (Sample.opts Sample.twoActive true 1 "" "")
                {| config.Authentication := Sample.twoActive |}
                [CallHosts; CallUser "github.com"; CallUsersForHost "github.com";
                 CallUser "ghe.io"; CallUsersForHost "ghe.io"]
                [ {| host := "github.com"; user := "alice"; active := true |};
                  {| host := "ghe.io"; user := "alice"; active := true |} ]
                eq_refl eq_refl) as [_ H].
    + simpl; lia.
    + simpl; lia.
    + destruct (H eq_refl 1%Z
                  {| host := "ghe.io"; user := "alice"; active := true |}
                  eq_refl) as [Hr _].
      * lia.
      * reflexivity.
      * exact Hr.
  - destruct (ambiguous_choice Sample.writeable
                (Sample.opts Sample.twoActive false 1 "" "")
                {| config.Authentication := Sample.twoActive |}
                [CallHosts; CallUser "github.com"; CallUsersForHost "github.com";
                 CallUser "ghe.io"; CallUsersForHost "ghe.io"]
                [ {| host := "github.com"; user := "alice"; active := true |};
                  {| host := "ghe.io"; user := "alice"; active := true |} ]
                eq_refl eq_refl) as [H _].
    + simpl; lia.
    + simpl; lia.
    + exact (proj1 (H eq_refl)).
Defined.

Lemma write_guard_blocks_witness :
  Config (Sample.opts Sample.twoActive true 1 "" "") =
    ({| config.Authentication := Sample.twoActive |}, None) /\
  Sample.writeable Sample.twoActive "ghe.io" = ("GH_ENTERPRISE_TOKEN", false) /\
  snd (switchRun Sample.writeable (Sample.opts Sample.twoActive true 1 "" "")) =
    Return cmdutil.SilentError /\
  invoked isRegister
    (fst (switchRun Sample.writeable
            (Sample.opts Sample.twoActive true 1 "" ""))) = false.
Proof.
  destruct (write_guard_blocks Sample.writeable
              (Sample.opts Sample.twoActive true 1 "" "")
              {| config.Authentication := Sample.twoActive |}
              [CallHosts; CallUser "github.com"; CallUsersForHost "github.com";
               CallUser "ghe.io"; CallUsersForHost "ghe.io"; CallCanPrompt;
               CallSelect "What account do you want to switch to?" ""
                 ["alice (github.com) - active"; "alice (ghe.io) - active"] ]
              "ghe.io" "alice" "GH_ENTERPRISE_TOKEN"
              eq_refl eq_refl eq_refl) as [Hs Hn].
  split; [reflexivity | split; [reflexivity | split] ].
  - now rewrite Hs.
  - exact Hn.
Defined.

Lemma prevalidate_hosts_witness :
  Config (Sample.opts Sample.empty true 0 "" "") =
    ({| config.Authentication := Sample.empty |}, None) /\
  switchRun Sample.writeable (Sample.opts Sample.empty true 0 "" "") =
    ([CallConfig; CallHosts], Return (errorString "not logged in to any hosts")) /\
  ~ In "example.com" (config.Hosts Sample.auth) /\
  switchRun Sample.writeable (Sample.opts Sample.auth true 0 "example.com" "") =
    ([CallConfig; CallHosts],
     Return (errorString "not logged in to example.com")).
Proof.
  assert (N : ~ In "example.com" (config.Hosts Sample.auth)).
  { simpl. intros [E | [E | [] ] ]; discriminate E. }
  split; [reflexivity | split; [ | split; [exact N | ] ] ].
  - exact (proj1 (prevalidate_hosts Sample.writeable
                    (Sample.opts Sample.empty true 0 "" "")
                    {| config.Authentication := Sample.empty |} eq_refl)
                 eq_refl).
  - apply (proj1 (proj2 (prevalidate_hosts Sample.writeable
                    (Sample.opts Sample.auth true 0 "example.com" "")
                    {| config.Authentication := Sample.auth |} eq_refl))).
    + discriminate.
    + discriminate.
    + exact N.
Defined.

Lemma prevalidate_user_witness :
  Config (Sample.opts Sample.auth true 0 Sample.hub "carol") =
    ({| config.Authentication := Sample.auth |}, None) /\
  In "github.com" (config.Hosts Sample.auth) /\
  ~ In "carol" (fst (config.UsersForHost Sample.auth "github.com")) /\
  switchRun Sample.writeable (Sample.opts Sample.auth true 0 Sample.hub "carol") =
    ([CallConfig; CallHosts; CallUsersForHost "github.com"],
     Return (errorString "not logged in as carol on github.com")).
Proof.
  assert (N : ~ In "carol" (fst (config.UsersForHost Sample.auth "github.com"))).
  { simpl. intros [E | [E | [] ] ]; discriminate E. }
  split; [reflexivity | split; [now left | split; [exact N | ] ] ].
  apply (prevalidate_user Sample.writeable
           (Sample.opts Sample.auth true 0 Sample.hub "carol")
           {| config.Authentication := Sample.auth |} eq_refl).
  - discriminate.
  - discriminate.
  - now left.
  - exact N.
Defined.

Lemma store_error_aborts_witness :
  Config (Sample.opts Sample.broken true 0 "" "") =
    ({| config.Authentication := Sample.broken |}, None) /\
  snd (config.UsersForHost Sample.broken "github.com") =
    Some (errorString "keyring locked") /\
  switchRun Sample.writeable (Sample.opts Sample.broken true 0 "" "") =
    ([CallConfig; CallHosts; CallUser "github.com"; CallUsersForHost "github.com"],
     Return (errorString "keyring locked")) /\
  invoked isChooser
    (fst (switchRun Sample.writeable (Sample.opts Sample.broken true 0 "" "")))
    = false.
Proof.
  destruct (store_error_aborts Sample.writeable
              (Sample.opts Sample.broken true 0 "" "")
              {| config.Authentication := Sample.broken |}
              [] [] [] [] "github.com" [] (errorString "keyring locked")
              eq_refl eq_refl eq_refl eq_refl eq_refl
              (or_intror (conj eq_refl eq_refl))) as (Hs & Hc & _).
  repeat split; assumption.
Defined.

Lemma resolution_deterministic_witness :
  sameSnapshot Sample.auth Sample.readOnly /\
  invoked isChooser
    (fst (resolve (Sample.opts Sample.auth false 0 Sample.hub "") Sample.auth))
    = false /\
  invoked isChooser
    (fst (resolve (Sample.opts Sample.readOnly true 7 Sample.hub "")
            Sample.readOnly)) = false /\
  resolve (Sample.opts Sample.auth false 0 Sample.hub "") Sample.auth =
  resolve (Sample.opts Sample.readOnly true 7 Sample.hub "") Sample.readOnly.
Proof.
  assert (S : sameSnapshot Sample.auth Sample.readOnly).
  { split; [reflexivity | split; intros h; reflexivity]. }
  split; [exact S | split; [reflexivity | split; [reflexivity | ] ] ].
  exact (resolution_deterministic
           (Sample.opts Sample.auth false 0 Sample.hub "")
           (Sample.opts Sample.readOnly true 7 Sample.hub "")
           Sample.auth Sample.readOnly S eq_refl eq_refl eq_refl eq_refl).
Defined.

Lemma precheck_discards_store_error_witness :
  Config (Sample.opts Sample.broken true 0 Sample.hub "bob") =
    ({| config.Authentication := Sample.broken |}, None) /\
  config.UsersForHost Sample.broken "github.com" =
    ([], Some (errorString "keyring locked")) /\
  switchRun Sample.writeable (Sample.opts Sample.broken true 0 Sample.hub "bob") =
    ([CallConfig; CallHosts; CallUsersForHost "github.com"],
     Return (errorString "not logged in as bob on github.com")) /\
  snd (buildCandidates Sample.broken "github.com" "bob" ["github.com"]) =
    Return (errorString "keyring locked").
Proof.
  destruct (precheck_discards_store_error Sample.writeable
              (Sample.opts Sample.broken true 0 Sample.hub "bob")
              {| config.Authentication := Sample.broken |}
              [] (errorString "keyring locked") eq_refl) as [Hs Hb].
  - discriminate.
  - discriminate.
  - now left.
  - reflexivity.
  - intros [].
  - split; [reflexivity | split; [reflexivity | split; [exact Hs | ] ] ].
    exact (Hb eq_refl).
Defined.

(** ** Further properties of a run *)

Lemma index_ok {A} (s : list A) (i : Z) (t : list event) (a : A) :
  index s i = (t, Ok a) ->
  t = [] /\ (0 <= i)%Z /\ nth_error s (Z.to_nat i) = Some a.
Proof.
  unfold index. destruct (i <? 0)%Z eqn:E; [discriminate | ].
  apply Z.ltb_ge in E.
  destruct (nth_error s (Z.to_nat i)) eqn:N; [ | discriminate].
  intros [= <- <-]. auto.
Qed.

Lemma index_panics {A} (s : list A) (i : Z) :
  (i < 0 \/ Z.of_nat (length s) <= i)%Z -> index s i = ([], Panic).
Proof.
  intros H. unfold index. destruct (i <? 0)%Z eqn:E; [reflexivity | ].
  apply Z.ltb_ge in E.
  assert (N : nth_error s (Z.to_nat i) = None) by (apply nth_error_None; lia).
  now rewrite N.
Qed.

Lemma index_no_return {A} (s : list A) (i : Z) (t : list event) (e : error) :
  index s i <> (t, Return e).
Proof.
  unfold index. destruct (i <? 0)%Z; [discriminate | ].
  destruct (nth_error s (Z.to_nat i)); discriminate.
Qed.


Lemma index_first {A} (s : list A) :
  length s = 1 -> exists a, s = [a] /\ index s 0 = ([], Ok a).
Proof.
  destruct s as [ | a [ | b s] ]; try discriminate. intros _. now exists a.
Qed.

(** every way [disambiguate] can end *)
Lemma disambiguate_cases (opts : SwitchOptions) (cands : candidates) :
  (cands = [] /\
   disambiguate opts cands =
     ([], Return (errorString "no user accounts matched that criteria"))) \/
  (exists c, cands = [c] /\ disambiguate opts cands = ([], Ok (host c, user c))) \/
  (1 < length cands /\
   exists c, inactiveOptions cands = [c] /\
             disambiguate opts cands = ([], Ok (host c, user c))) \/
  (1 < length cands /\ length (inactiveOptions cands) <> 1 /\
   iostreams.CanPrompt (IO opts) = false /\
   disambiguate opts cands =
     ([CallCanPrompt],
      Return (errorString "unable to determine which user account to switch to, please specify `--hostname` and `--user`"))) \/
  (1 < length cands /\ length (inactiveOptions cands) <> 1 /\
   iostreams.CanPrompt (IO opts) = true /\
   disambiguate opts cands =
     andThen [CallCanPrompt;
              CallSelect "What account do you want to switch to?" ""
                         (map presented cands)]
       (let r := shared.Select (Prompter opts)
                   "What account do you want to switch to?" ""
                   (map presented cands) in
        match snd r with
        | Some err => return_ (Errorf_w "could not prompt: " err)
        | None => c <- index cands (fst r) ;; ret (host c, user c)
        end)).
Proof.
  destruct cands as [ | c [ | c' cands] ].
  - left. split; [reflexivity | apply disambiguate_none].
  - right; left. exists c. split; [reflexivity | apply disambiguate_lone].
  - right; right.
    assert (Hlen : 1 < length (c :: c' :: cands)) by (simpl; lia).
    destruct (Nat.eq_dec (length (inactiveOptions (c :: c' :: cands))) 1)
      as [E | N].
    + left. split; [exact Hlen | ].
      destruct (inactiveOptions (c :: c' :: cands)) as [ | x [ | y l] ] eqn:I;
        try discriminate.
      exists x. split; [reflexivity | ].
      now apply disambiguate_single_inactive.
    + right. destruct (iostreams.CanPrompt (IO opts)) eqn:P.
      * right. repeat (split; [assumption || reflexivity | ]).
        now apply disambiguate_prompt.
      * left. repeat (split; [assumption || reflexivity | ]).
        now apply disambiguate_no_prompt.
Qed.

Lemma inactiveOptions_In (cs : candidates) (c : hostUser) :
  In c (inactiveOptions cs) <-> In c cs /\ active c = false.
Proof.
  rewrite inactiveOptions_filter, filter_In.
  destruct (active c); simpl; intuition congruence.
Qed.

(** a resolved target is one of the candidates *)
Lemma disambiguate_picks (opts : SwitchOptions) (cands : candidates)
    (t : list event) (h u : string) :
  disambiguate opts cands = (t, Ok (h, u)) ->
  exists c, In c cands /\ host c = h /\ user c = u.
Proof.
  destruct (disambiguate_cases opts cands)
    as [ [_ ->] | [ (c & -> & ->) | [ (_ & c & I & ->) | [ (_ & _ & _ & ->) |
         (_ & _ & _ & ->) ] ] ] ]; try discriminate.
  - intros [= _ <- <-]. exists c. simpl. auto.
  - intros [= _ <- <-]. exists c. split; [ | auto].
    apply (inactiveOptions_In cands c). rewrite I. now left.
  - simpl. destruct (shared.Select _ _ _ _) as [i [e | ] ]; simpl.
    + unfold andThen; simpl. discriminate.
    + destruct (index cands i) as [ti [c | e | ] ] eqn:X;
        unfold ret; rewrite ?bind_ok; unfold andThen; simpl; try discriminate.
      intros [= _ <- <-]. apply index_ok in X as (_ & _ & N).
      exists c. split; [ | auto]. eapply nth_error_In; eassumption.
Qed.

Lemma preValidate_no_panic (authCfg : config.AuthConfig) (h u : string)
    (hs : list string) :
  snd (preValidate authCfg h u hs) <> Panic.
Proof.
  unfold preValidate.
  destruct (Nat.eqb (length hs) 0); [discriminate | ].
  destruct (negb (h =? "")%string); [ | discriminate].
  destruct (negb (Contains hs h)); [discriminate | ].
  destruct (negb (u =? "")%string); [ | discriminate].
  unfold call. rewrite bind_ok.
  destruct (negb (Contains _ u)); discriminate.
Qed.

Lemma rangeHosts_no_panic (authCfg : config.AuthConfig) (h u : string)
    (hs : list string) (cs : candidates) :
  snd (rangeHosts authCfg h u hs cs) <> Panic.
Proof.
  revert cs. induction hs as [ | x hs IH]; intros cs; simpl; [discriminate | ].
  destruct (negb (h =? "")%string && negb (x =? h)%string); [apply IH | ].
  destruct (try_cases (CallUser x) (config.User authCfg x))
    as [ [_ ->] | (e & _ & ->) ]; [rewrite bind_ok | discriminate].
  destruct (try_cases (CallUsersForHost x) (config.UsersForHost authCfg x))
    as [ [_ ->] | (e & _ & ->) ]; [rewrite bind_ok | discriminate].
  unfold andThen; simpl. apply IH.
Qed.

(** every way Steps 1 and 2 can end *)
Lemma gatherCandidates_cases (opts : SwitchOptions) (authCfg : config.AuthConfig) :
  (exists t e, gatherCandidates opts authCfg = (CallHosts :: t, Return e)) \/
  (exists t0,
     preValidate authCfg (Hostname opts) (User opts) (config.Hosts authCfg)
       = (t0, Ok tt) /\
     gatherCandidates opts authCfg =
       (CallHosts :: t0 ++ reads (Hostname opts) (config.Hosts authCfg),
        Ok (candidateSet authCfg (Hostname opts) (User opts)
              (config.Hosts authCfg)))).
Proof.
  unfold gatherCandidates, call. rewrite bind_ok.
  pose proof (preValidate_no_panic authCfg (Hostname opts) (User opts)
                (config.Hosts authCfg)) as NP.
  destruct (preValidate _ _ _ _) as [t0 [ [] | e | ] ]; simpl in NP;
    [ | left; now exists t0, e | congruence].
  rewrite bind_ok. unfold buildCandidates.
  pose proof (rangeHosts_no_panic authCfg (Hostname opts) (User opts)
                (config.Hosts authCfg) []) as NP2.
  destruct (rangeHosts _ _ _ _ _) as [t1 [cs | e | ] ] eqn:R; simpl in NP2;
    [ | left; now exists (t0 ++ t1), e | congruence].
  right. exists t0. split; [reflexivity | ].
  apply rangeHosts_sound in R as [-> ->]. reflexivity.
Qed.

Lemma calls_app (p : event -> bool) (t t' : list event) :
  calls p (t ++ t') = calls p t + calls p t'.
Proof. unfold calls. now rewrite filter_app, length_app. Qed.

Lemma calls_andThen {A} (p : event -> bool) (t : list event) (k : M A) :
  calls p (fst (andThen t k)) = calls p t + calls p (fst k).
Proof. apply calls_app. Qed.

Lemma calls_none (p : event -> bool) (t : list event) :
  invoked p t = false -> calls p t = 0.
Proof.
  unfold invoked, calls. induction t as [ | e t IH]; simpl; [reflexivity | ].
  intros H. apply orb_false_elim in H as [He Ht]. rewrite He. now apply IH.
Qed.

Lemma not_invoked_In (p : event -> bool) (t : list event) (e : event) :
  invoked p t = false -> p e = true -> ~ In e t.
Proof.
  unfold invoked. intros H He Hin.
  assert (X : existsb p t = true) by (apply existsb_exists; eauto).
  congruence.
Qed.

Section Runs.
Variable AuthTokenWriteable : config.AuthConfig -> string -> string * bool.
Variable opts : SwitchOptions.

(** every way Step 4 can end *)
Lemma commit_cases (authCfg : config.AuthConfig) (h u : string) :
  (exists src,
     AuthTokenWriteable authCfg h = (src, false) /\
     commit AuthTokenWriteable opts authCfg h u =
       ([CallAuthTokenWriteable h;
         ErrOut ("The value of the " ++ src ++
                 " environment variable is being used for authentication." ++ nl)%string;
         ErrOut ("To have GitHub CLI manage credentials instead, first clear the value from the environment." ++ nl)%string],
        Return cmdutil.SilentError)) \/
  (snd (AuthTokenWriteable authCfg h) = true /\
   exists e, config.SwitchUser authCfg h u = Some e /\
     commit AuthTokenWriteable opts authCfg h u =
       ([CallAuthTokenWriteable h; CallSwitchUser h u], Return e)) \/
  (snd (AuthTokenWriteable authCfg h) = true /\
   config.SwitchUser authCfg h u = None /\
   commit AuthTokenWriteable opts authCfg h u =
     ([CallAuthTokenWriteable h; CallSwitchUser h u;
       ErrOut (iostreams.SuccessIcon (IO opts) ++
               " Switched active account on " ++ h ++ " to '" ++
               iostreams.Bold (IO opts) u ++ "'" ++ nl)%string],
      Ok tt)).
Proof.
  destruct (AuthTokenWriteable authCfg h) as [src w] eqn:W. destruct w.
  - right. assert (Hw : snd (AuthTokenWriteable authCfg h) = true)
      by now rewrite W.
    pose proof (commit_writeable AuthTokenWriteable opts authCfg h u Hw) as C.
    simpl. destruct (config.SwitchUser authCfg h u) as [e | ].
    + left. split; [reflexivity | ]. now exists e.
    + right. now repeat split.
  - left. exists src. split; [reflexivity | ].
    now apply commit_overridden.
Qed.

(** every way a run can end *)
Lemma switchRun_cases :
  (exists cfg e, Config opts = (cfg, Some e) /\
     switchRun AuthTokenWriteable opts = ([CallConfig], Return e)) \/
  (exists cfg t, Config opts = (cfg, None) /\
     ((exists e, resolve opts (config.Authentication cfg) = (t, Return e) /\
         switchRun AuthTokenWriteable opts = (CallConfig :: t, Return e)) \/
      (resolve opts (config.Authentication cfg) = (t, Panic) /\
         switchRun AuthTokenWriteable opts = (CallConfig :: t, Panic)) \/
      (exists h u, resolve opts (config.Authentication cfg) = (t, Ok (h, u)) /\
         switchRun AuthTokenWriteable opts =
           andThen (CallConfig :: t)
             (commit AuthTokenWriteable opts (config.Authentication cfg) h u)))).
Proof.
  destruct (Config opts) as [cfg [e | ] ] eqn:C.
  - left. exists cfg, e. split; [reflexivity | ].
    unfold switchRun. now rewrite C, try_err.
  - right. destruct (resolve opts (config.Authentication cfg))
      as [t [ [h u] | e | ] ] eqn:R; exists cfg, t; (split; [reflexivity | ]).
    + right; right. exists h, u. split; [exact R | ].
      now apply (switchRun_resolved _ _ cfg).
    + left. exists e. split; [exact R | ].
      now apply (switchRun_failed _ _ cfg).
    + right; left. split; [exact R | ].
      now rewrite (switchRun_config _ _ cfg C), R.
Qed.

(** a resolved target is a login of the store that passes both filters *)
Lemma resolve_picks_stored (authCfg : config.AuthConfig) (t : list event)
    (h u : string) :
  resolve opts authCfg = (t, Ok (h, u)) ->
  stored authCfg h u /\
  passes (Hostname opts) h = true /\ passes (User opts) u = true.
Proof.
  rewrite resolve_gather.
  destruct (gatherCandidates_cases opts authCfg)
    as [ (t0 & e & ->) | (t0 & _ & ->) ]; [discriminate | ].
  rewrite bind_ok.
  destruct (disambiguate opts _) as [td r] eqn:D. unfold andThen; simpl.
  intros [= _ ->]. apply disambiguate_picks in D as (c & Hc & <- & <-).
  pose proof (candidateSet_entries authCfg (Hostname opts) (User opts)
                (config.Hosts authCfg)) as F.
  rewrite Forall_forall in F. destruct (F c Hc) as (H1 & H2 & H3 & H4 & _).
  repeat split; assumption.
Qed.

End Runs.

Lemma index_log {A} (s : list A) (i : Z) : fst (index s i) = [].
Proof.
  unfold index. destruct (i <? 0)%Z; [reflexivity | ].
  destruct (nth_error s (Z.to_nat i)); reflexivity.
Qed.

Lemma pick_log (cands : candidates) (i : Z) :
  fst (c <- index cands i ;; ret (host c, user c)) = [].
Proof.
  pose proof (index_log cands i) as L.
  destruct (index cands i) as [t [c | e | ] ]; simpl in L; subst t;
    reflexivity.
Qed.

Lemma disambiguate_chooser_calls (opts : SwitchOptions) (cands : candidates) :
  calls isChooser (fst (disambiguate opts cands)) <= 1.
Proof.
  destruct (disambiguate_cases opts cands)
    as [ [_ ->] | [ (c & _ & ->) | [ (_ & c & _ & ->) | [ (_ & _ & _ & ->) |
         (_ & _ & _ & ->) ] ] ] ]; simpl; try (unfold calls; simpl; lia).
  destruct (shared.Select _ _ _ _) as [i [e | ] ]; simpl.
  - unfold calls; simpl; lia.
  - rewrite pick_log. unfold calls; simpl; lia.
Qed.

Lemma resolve_quiet (opts : SwitchOptions) (authCfg : config.AuthConfig)
    (p : event -> bool) :
  (forall e, isResolveCall e = true -> p e = false) ->
  invoked p (fst (resolve opts authCfg)) = false.
Proof.
  intros Hp. apply (forallb_not_invoked isResolveCall); [exact Hp | ].
  apply resolve_log.
Qed.

Lemma resolve_chooser_calls (opts : SwitchOptions) (authCfg : config.AuthConfig) :
  calls isChooser (fst (resolve opts authCfg)) <= 1.
Proof.
  rewrite resolve_gather.
  pose proof (gather_quiet opts authCfg isChooser eq_refl
                storeRead_not_chooser) as Q.
  destruct (gatherCandidates opts authCfg) as [t [cands | e | ] ];
    simpl in Q; try (simpl; rewrite (calls_none _ _ Q); lia).
  rewrite bind_ok. unfold andThen; simpl.
  rewrite calls_app, (calls_none _ _ Q).
  apply disambiguate_chooser_calls.
Qed.



Lemma passes_unset (v : string) : passes "" v = true.
Proof. reflexivity. Qed.

Lemma filter_passes_unset (l : list string) : filter (passes "") l = l.
Proof.
  induction l as [ | x l IH]; simpl; [reflexivity | now rewrite IH].
Qed.

Lemma rangeHosts_reads (authCfg : config.AuthConfig) (hostname username : string)
    (hs0 hs : list string) (cs : candidates) :
  incl hs hs0 ->
  Forall (readAllowed hostname hs0)
         (fst (rangeHosts authCfg hostname username hs cs)).
Proof.
  revert cs. induction hs as [ | x hs IH]; intros cs I; simpl; [constructor | ].
  assert (I' : incl hs hs0) by (intros y Hy; apply I; now right).
  rewrite skip_passes. destruct (passes hostname x) eqn:P; simpl;
    [ | now apply IH].
  assert (A1 : readAllowed hostname hs0 (CallUser x)).
  { intros h [= <-]. split; [apply I; now left | exact P]. }
  assert (A2 : readAllowed hostname hs0 (CallUsersForHost x)).
  { intros h [= <-]. split; [apply I; now left | exact P]. }
  destruct (try_cases (CallUser x) (config.User authCfg x))
    as [ [_ ->] | (e & _ & ->) ];
    [rewrite bind_ok | apply Forall_cons; [exact A1 | apply Forall_nil] ].
  destruct (try_cases (CallUsersForHost x) (config.UsersForHost authCfg x))
    as [ [_ ->] | (e & _ & ->) ];
    [rewrite bind_ok
    | apply Forall_cons; [exact A1 | apply Forall_cons; [exact A2 | apply Forall_nil] ] ].
  unfold andThen; simpl.
  apply Forall_cons; [exact A1 | apply Forall_cons; [exact A2 | now apply IH] ].
Qed.

Lemma preValidate_reads (authCfg : config.AuthConfig) (hostname username : string)
    (hs : list string) :
  Forall (readAllowed hostname hs)
         (fst (preValidate authCfg hostname username hs)).
Proof.
  unfold preValidate.
  destruct (Nat.eqb (length hs) 0); [constructor | ].
  destruct (negb (hostname =? "")%string); [ | constructor].
  destruct (Contains hs hostname) eqn:C; simpl; [ | constructor].
  destruct (negb (username =? "")%string); [ | constructor].
  unfold call. rewrite bind_ok.
  assert (A : readAllowed hostname hs (CallUsersForHost hostname)).
  { intros h [= <-]. split; [now apply Contains_In | ].
    unfold passes. now rewrite String.eqb_refl, orb_true_r. }
  destruct (negb (Contains _ username));
    (apply Forall_cons; [exact A | apply Forall_nil]).
Qed.

Lemma no_read_allowed (p : event -> bool) (hostname : string)
    (hs : list string) (t : list event) :
  (forall e, p e = true -> readHost e = None) ->
  forallb p t = true -> Forall (readAllowed hostname hs) t.
Proof.
  intros Hp. induction t as [ | e t IH]; simpl; [constructor | ].
  intros H. apply andb_prop in H as [He Ht]. constructor; [ | now apply IH].
  intros h X. rewrite (Hp e He) in X. discriminate.
Qed.

Lemma resolve_reads (opts : SwitchOptions) (authCfg : config.AuthConfig) :
  Forall (readAllowed (Hostname opts) (config.Hosts authCfg))
         (fst (resolve opts authCfg)).
Proof.
  unfold resolve, call. rewrite bind_ok. unfold andThen. cbn [fst].
  apply Forall_app.
  split; [apply Forall_cons; [intros h X; discriminate | apply Forall_nil] | ].
  pose proof (preValidate_reads authCfg (Hostname opts) (User opts)
                (config.Hosts authCfg)) as F0.
  destruct (preValidate _ _ _ _) as [t0 [ [] | e | ] ]; simpl in F0;
    try exact F0.
  rewrite bind_ok. unfold andThen. cbn [fst].
  apply Forall_app. split; [exact F0 | ].
  pose proof (rangeHosts_reads authCfg (Hostname opts) (User opts)
                (config.Hosts authCfg) (config.Hosts authCfg) []
                (incl_refl _)) as F1.
  unfold buildCandidates.
  destruct (rangeHosts _ _ _ _ _) as [t1 [cands | e | ] ]; simpl in F1;
    try exact F1.
  rewrite bind_ok. unfold andThen. cbn [fst].
  apply Forall_app. split; [exact F1 | ].
  refine (no_read_allowed _ _ _ _ _ (disambiguate_log opts cands)).
  intros e. destruct e; (reflexivity || discriminate).
Qed.

Lemma NoDup_map_inj {A B} (f : A -> B) (l : list A) :
  (forall x y, f x = f y -> x = y) -> NoDup l -> NoDup (map f l).
Proof.
  intros Hf. induction 1 as [ | x l N _ IH]; simpl; constructor; [ | exact IH].
  intros I. apply in_map_iff in I as (y & E & Hy). apply Hf in E. now subst.
Qed.

Lemma NoDup_all_equal {A} (x : A) (l : list A) :
  NoDup l -> (forall y, In y l -> y = x) -> length l <= 1.
Proof.
  destruct l as [ | a [ | b l] ]; simpl; intros N H; try lia.
  exfalso. apply NoDup_cons_iff in N as [N _]. apply N.
  rewrite (H a), (H b); simpl; auto.
Qed.

Lemma candidateSet_NoDup (authCfg : config.AuthConfig)
    (hostname username : string) (hs : list string) :
  NoDup hs ->
  (forall h, In h hs -> NoDup (fst (config.UsersForHost authCfg h))) ->
  NoDup (candidateSet authCfg hostname username hs).
Proof.
  induction 1 as [ | h hs N ND IH]; intros U; [constructor | ].
  assert (IH' : NoDup (candidateSet authCfg hostname username hs))
    by (apply IH; intros x Hx; apply U; now right).
  destruct (passes hostname h) eqn:P.
  - rewrite candidateSet_cons by assumption. apply NoDup_app.
    + apply NoDup_map_inj; [now intros x y [= ->] | ].
      apply NoDup_filter. apply U. now left.
    + exact IH'.
    + intros c I1 I2. apply in_map_iff in I1 as (u & <- & _).
      pose proof (candidateSet_entries authCfg hostname username hs) as F.
      rewrite Forall_forall in F. destruct (F _ I2) as (Ih & _). simpl in Ih.
      contradiction.
  - now rewrite candidateSet_skip.
Qed.

(** ** Properties beyond the claims *)

Section Properties.
Variable AuthTokenWriteable : config.AuthConfig -> string -> string * bool.

(** X1. When the configuration cannot be loaded, the run returns that error
    as it is and makes no other call. *)
Theorem config_error_returned
    (opts : SwitchOptions) (cfg : config.Config) (e : error) :
  Config opts = (cfg, Some e) ->
  switchRun AuthTokenWriteable opts = ([CallConfig], Return e).
Proof. intros C. unfold switchRun. now rewrite C, try_err. Qed.


(** X3. When the Chooser fails, the run returns its error wrapped: the
    message is "could not prompt: " followed by the Chooser's message, the
    Chooser's error is what [errors.Unwrap] gives back, and neither the write
    guard nor the register is called. *)
Theorem chooser_error_wrapped
    (opts : SwitchOptions) (cfg : config.Config) (t : list event)
    (cands : candidates) (i : Z) (err : error) :
  Config opts = (cfg, None) ->
  gatherCandidates opts (config.Authentication cfg) = (t, Ok cands) ->
  1 < length cands -> length (inactiveOptions cands) <> 1 ->
  iostreams.CanPrompt (IO opts) = true ->
  shared.Select (Prompter opts) "What account do you want to switch to?" ""
                (map presented cands) = (i, Some err) ->
  exists e,
    switchRun AuthTokenWriteable opts =
      (CallConfig :: t ++
       [CallCanPrompt;
        CallSelect "What account do you want to switch to?" ""
                   (map presented cands)],
       Return e) /\
    Error e = ("could not prompt: " ++ Error err)%string /\
    Unwrap e = Some err /\
    invoked isWriteGuard (fst (switchRun AuthTokenWriteable opts)) = false /\
    invoked isRegister (fst (switchRun AuthTokenWriteable opts)) = false.
Proof.
  intros C G Hlen Hin Hcan Hsel.
  pose proof (resolve_candidates _ _ _ _ G) as R.
  rewrite (disambiguate_prompt opts _ Hlen Hin Hcan), Hsel in R. simpl in R.
  unfold andThen in R; simpl in R.
  pose proof (switchRun_failed AuthTokenWriteable opts cfg _ _ C R) as S.
  exists (Errorf_w "could not prompt: " err).
  split; [exact S | split; [reflexivity | split; [reflexivity | ] ] ].
  rewrite S. simpl fst.
  pose proof (resolve_quiet opts (config.Authentication cfg) isWriteGuard) as Q1.
  pose proof (resolve_quiet opts (config.Authentication cfg) isRegister) as Q2.
  rewrite R in Q1, Q2. simpl fst in Q1, Q2.
  unfold invoked in *. simpl.
  split; [apply Q1 | apply Q2]; now intros [].
Qed.

(** X4. The index the Chooser returns is not checked: when it is negative or
    not below the number of candidates, the run panics on the slice access,
    before the write guard or the register is called. *)
Theorem chooser_index_out_of_range
    (opts : SwitchOptions) (cfg : config.Config) (t : list event)
    (cands : candidates) (i : Z) :
  Config opts = (cfg, None) ->
  gatherCandidates opts (config.Authentication cfg) = (t, Ok cands) ->
  1 < length cands -> length (inactiveOptions cands) <> 1 ->
  iostreams.CanPrompt (IO opts) = true ->
  shared.Select (Prompter opts) "What account do you want to switch to?" ""
                (map presented cands) = (i, None) ->
  (i < 0 \/ Z.of_nat (length cands) <= i)%Z ->
  switchRun AuthTokenWriteable opts =
    (CallConfig :: t ++
     [CallCanPrompt;
      CallSelect "What account do you want to switch to?" ""
                 (map presented cands)],
     Panic).
Proof.
  intros C G Hlen Hin Hcan Hsel Hi.
  pose proof (resolve_candidates _ _ _ _ G) as R.
  rewrite (disambiguate_prompt opts _ Hlen Hin Hcan), Hsel in R. simpl in R.
  rewrite (index_panics _ _ Hi) in R. unfold andThen in R; simpl in R.
  now rewrite (switchRun_config AuthTokenWriteable opts cfg C), R.
Qed.



(** X6. Once a host and user are resolved and the write guard lets the host
    through, [SwitchUser] is called once with them.  If it fails, its error
    is returned as it is and nothing is printed; if it succeeds, the run
    prints one line on the error stream, naming the host and the user in
    bold after the success icon, and returns [nil]. *)
Theorem switch_outcome
    (opts : SwitchOptions) (cfg : config.Config) (t : list event)
    (h u : string) :
  Config opts = (cfg, None) ->
  resolve opts (config.Authentication cfg) = (t, Ok (h, u)) ->
  snd (AuthTokenWriteable (config.Authentication cfg) h) = true ->
  switchRun AuthTokenWriteable opts =
    match config.SwitchUser (config.Authentication cfg) h u with
    | Some e =>
        (CallConfig :: t ++ [CallAuthTokenWriteable h; CallSwitchUser h u],
         Return e)
    | None =>
        (CallConfig :: t ++
         [CallAuthTokenWriteable h; CallSwitchUser h u;
          ErrOut (iostreams.SuccessIcon (IO opts) ++
                  " Switched active account on " ++ h ++ " to '" ++
                  iostreams.Bold (IO opts) u ++ "'" ++ nl)%string],
         Ok tt)
    end.
Proof.
  intros C R W.
  rewrite (switchRun_resolved AuthTokenWriteable opts cfg _ _ _ C R).
  rewrite (commit_writeable _ _ _ _ _ W).
  destruct (config.SwitchUser _ h u); reflexivity.
Qed.

(** X7. A run returns [nil] only after a switch: the configuration was
    loaded, the log ends with the write guard, one [SwitchUser] call that
    returned [nil] and the confirmation line, no earlier call reached the
    register, and the login switched to is one of the store. *)
Theorem success_means_switched (opts : SwitchOptions) :
  snd (switchRun AuthTokenWriteable opts) = Ok tt ->
  exists cfg h u pre,
    Config opts = (cfg, None) /\
    fst (switchRun AuthTokenWriteable opts) =
      pre ++ [CallAuthTokenWriteable h; CallSwitchUser h u;
              ErrOut (iostreams.SuccessIcon (IO opts) ++
                      " Switched active account on " ++ h ++ " to '" ++
                      iostreams.Bold (IO opts) u ++ "'" ++ nl)%string] /\
    invoked isRegister pre = false /\
    config.SwitchUser (config.Authentication cfg) h u = None /\
    stored (config.Authentication cfg) h u.
Proof.
  destruct (switchRun_cases AuthTokenWriteable opts)
    as [ (cfg & e & _ & ->) | (cfg & t & C & [ (e & _ & ->) | [ [_ ->] |
         (h & u & R & ->) ] ]) ]; try discriminate.
  destruct (commit_cases AuthTokenWriteable opts (config.Authentication cfg) h u)
    as [ (src & _ & ->) | [ (_ & e & _ & ->) | (_ & S & ->) ] ];
    try discriminate.
  intros _. exists cfg, h, u, (CallConfig :: t).
  split; [exact C | split; [reflexivity | split; [ | split; [exact S | ] ] ] ].
  - pose proof (resolve_quiet opts (config.Authentication cfg) isRegister) as Q.
    rewrite R in Q. unfold invoked in *. simpl. apply Q. now intros [].
  - now apply (resolve_picks_stored opts _ t h u).
Qed.

(** X8. Whenever [SwitchUser] is called, with whatever outcome, it is called
    right after the write guard was asked about the same host and let it
    through, and the host and user are a login of the store that passes both
    filters. *)
Theorem switch_targets_stored_login (opts : SwitchOptions) (h u : string) :
  In (CallSwitchUser h u) (fst (switchRun AuthTokenWriteable opts)) ->
  exists cfg pre post,
    Config opts = (cfg, None) /\
    fst (switchRun AuthTokenWriteable opts) =
      pre ++ CallAuthTokenWriteable h :: CallSwitchUser h u :: post /\
    snd (AuthTokenWriteable (config.Authentication cfg) h) = true /\
    stored (config.Authentication cfg) h u /\
    passes (Hostname opts) h = true /\ passes (User opts) u = true.
Proof.
  destruct (switchRun_cases AuthTokenWriteable opts)
    as [ (cfg & e & _ & ->) | (cfg & t & C & [ (e & R & ->) | [ [R ->] |
         (h' & u' & R & ->) ] ]) ]; simpl fst.
  - intros [E | [] ]; discriminate E.
  - intros [E | I]; [discriminate E | exfalso].
    pose proof (resolve_quiet opts (config.Authentication cfg) isRegister) as Q.
    rewrite R in Q. refine (not_invoked_In isRegister t (CallSwitchUser h u) _ eq_refl I).
    apply Q. now intros [].
  - intros [E | I]; [discriminate E | exfalso].
    pose proof (resolve_quiet opts (config.Authentication cfg) isRegister) as Q.
    rewrite R in Q. refine (not_invoked_In isRegister t (CallSwitchUser h u) _ eq_refl I).
    apply Q. now intros [].
  - intros [E | I]; [discriminate E | ].
    apply in_app_or in I as [I | I].
    { exfalso.
      pose proof (resolve_quiet opts (config.Authentication cfg) isRegister) as Q.
      rewrite R in Q. refine (not_invoked_In isRegister t (CallSwitchUser h u) _ eq_refl I).
      apply Q. now intros []. }
    destruct (resolve_picks_stored opts _ t h' u' R) as (St & Ph & Pu).
    destruct (commit_cases AuthTokenWriteable opts (config.Authentication cfg)
                h' u')
      as [ (src & _ & X) | [ (W & e & _ & X) | (W & _ & X) ] ];
      rewrite X in I |- *; simpl in I.
    + destruct I as [E | [E | [E | [] ] ] ]; discriminate E.
    + destruct I as [E | [E | [] ] ]; [discriminate E | ].
      injection E as <- <-. exists cfg, (CallConfig :: t), [].
      repeat split; try assumption; apply St.
    + destruct I as [E | [E | [E | [] ] ] ]; try discriminate E.
      injection E as <- <-. exists cfg, (CallConfig :: t).
      eexists. repeat split; try assumption; try apply St.
Qed.

(** X9. A run calls the Chooser at most once, the write guard at most once
    and the register at most once, and never the register without the write
    guard. *)
Theorem at_most_one_commit (opts : SwitchOptions) :
  calls isChooser (fst (switchRun AuthTokenWriteable opts)) <= 1 /\
  calls isWriteGuard (fst (switchRun AuthTokenWriteable opts)) <= 1 /\
  calls isRegister (fst (switchRun AuthTokenWriteable opts)) <= 1 /\
  calls isRegister (fst (switchRun AuthTokenWriteable opts)) <=
    calls isWriteGuard (fst (switchRun AuthTokenWriteable opts)).
Proof.
  assert (K : forall cfg t (r : result (string * string)),
            resolve opts (config.Authentication cfg) = (t, r) ->
            calls isChooser (CallConfig :: t) <= 1 /\
            calls isWriteGuard (CallConfig :: t) = 0 /\
            calls isRegister (CallConfig :: t) = 0).
  { intros cfg t r R.
    pose proof (resolve_chooser_calls opts (config.Authentication cfg)) as Q0.
    pose proof (resolve_quiet opts (config.Authentication cfg) isWriteGuard) as Q1.
    pose proof (resolve_quiet opts (config.Authentication cfg) isRegister) as Q2.
    rewrite R in Q0, Q1, Q2. simpl fst in *.
    split; [exact Q0 | split; apply calls_none; unfold invoked; simpl].
    - apply Q1. now intros [].
    - apply Q2. now intros []. }
  destruct (switchRun_cases AuthTokenWriteable opts)
    as [ (cfg & e & _ & ->) | (cfg & t & C & [ (e & R & ->) | [ [R ->] |
         (h & u & R & ->) ] ]) ]; cbn [fst].
  - unfold calls; simpl; lia.
  - destruct (K cfg t _ R) as (K0 & K1 & K2). lia.
  - destruct (K cfg t _ R) as (K0 & K1 & K2). lia.
  - destruct (K cfg t _ R) as (K0 & K1 & K2).
    rewrite !calls_andThen.
    assert (Kc : calls isChooser (fst (commit AuthTokenWriteable opts
                   (config.Authentication cfg) h u)) = 0 /\
                 calls isWriteGuard (fst (commit AuthTokenWriteable opts
                   (config.Authentication cfg) h u)) = 1 /\
                 calls isRegister (fst (commit AuthTokenWriteable opts
                   (config.Authentication cfg) h u)) <= 1).
    { destruct (commit_cases AuthTokenWriteable opts
                  (config.Authentication cfg) h u)
        as [ (src & _ & ->) | [ (_ & e & _ & ->) | (_ & _ & ->) ] ];
        unfold calls; simpl; lia. }
    lia.
Qed.

(** X10. Step 1 lets a run through exactly when some host is known and, if a
    host filter is set, that host is known and, if a user filter is set as
    well, the user is in the list fetched for that host. *)
Theorem step1_accepts_iff
    (authCfg : config.AuthConfig) (hostname username : string)
    (knownHosts : list string) :
  (exists t, preValidate authCfg hostname username knownHosts = (t, Ok tt)) <->
  knownHosts <> [] /\
  (filterSet hostname ->
   In hostname knownHosts /\
   (filterSet username ->
    In username (fst (config.UsersForHost authCfg hostname)))).
Proof.
  unfold preValidate, filterSet.
  destruct knownHosts as [ | x hs] eqn:E.
  { simpl. split; [intros [t X]; discriminate | intros [N _]; congruence]. }
  rewrite <- E. assert (Hne : knownHosts <> []) by (subst; discriminate).
  replace (Nat.eqb (length knownHosts) 0) with false
    by (subst; reflexivity).
  clear E x hs.
  destruct (String.eqb_spec hostname "") as [-> | Nh]; simpl.
  { split; [intros _; split; [exact Hne | congruence] | intros _; now exists [] ]. }
  destruct (Contains knownHosts hostname) eqn:Ch; simpl.
  2:{ apply Contains_not_In in Ch. split; [intros [t X]; discriminate | ].
      intros [_ H]. destruct (H Nh) as [I _]. contradiction. }
  apply Contains_In in Ch.
  destruct (String.eqb_spec username "") as [-> | Nu]; simpl.
  { split; [ | intros _; now exists [] ].
    intros _. split; [exact Hne | ]. intros _. split; [exact Ch | congruence]. }
  unfold call. rewrite bind_ok.
  destruct (Contains (fst (config.UsersForHost authCfg hostname)) username)
    eqn:Cu; simpl.
  - apply Contains_In in Cu. split; [ | intros _; eexists; reflexivity].
    intros _. split; [exact Hne | ]. intros _. split; [exact Ch | ].
    intros _. exact Cu.
  - apply Contains_not_In in Cu. unfold andThen; simpl.
    split; [intros [t X]; discriminate | ].
    intros [_ H]. destruct (H Nh) as [_ H']. exfalso. exact (Cu (H' Nu)).
Qed.


(** X12. [inactiveOptions] keeps exactly the entries that are not active, in
    their order: it commutes with concatenation, cannot grow the list, and
    applying it twice changes nothing more. *)
Theorem inactiveOptions_keeps_inactive (cs cs' : candidates) :
  (forall c, In c (inactiveOptions cs) <-> In c cs /\ active c = false) /\
  inactiveOptions (cs ++ cs') = inactiveOptions cs ++ inactiveOptions cs' /\
  length (inactiveOptions cs) <= length cs /\
  inactiveOptions (inactiveOptions cs) = inactiveOptions cs.
Proof.
  split; [intros c; apply inactiveOptions_In | ].
  split; [apply inactiveOptions_app | ].
  split.
  - rewrite inactiveOptions_filter. apply filter_length_le.
  - induction cs as [ | c cs IH]; simpl; [reflexivity | ].
    destruct (active c) eqn:A; simpl; [exact IH | ].
    now rewrite A, IH.
Qed.

(** X13. A run asks the store only about known hosts that pass the host
    filter: every [User] and [UsersForHost] call in the log is about a host
    in the list of known hosts, and about the filtered host itself when the
    host filter is set. *)
Theorem reads_only_filtered_hosts
    (opts : SwitchOptions) (cfg : config.Config) (e : event) (h : string) :
  Config opts = (cfg, None) ->
  In e (fst (switchRun AuthTokenWriteable opts)) -> readHost e = Some h ->
  In h (config.Hosts (config.Authentication cfg)) /\
  (filterSet (Hostname opts) -> h = Hostname opts).
Proof.
  intros C I Rh.
  assert (A : readAllowed (Hostname opts)
                (config.Hosts (config.Authentication cfg)) e).
  { pose proof (resolve_reads opts (config.Authentication cfg)) as F.
    rewrite Forall_forall in F.
    rewrite (switchRun_config AuthTokenWriteable opts cfg C) in I.
    destruct (resolve opts (config.Authentication cfg))
      as [t [ [h' u'] | err | ] ]; simpl in F.
    - rewrite bind_ok in I. unfold andThen in I. simpl in I.
      destruct I as [<- | I]; [discriminate Rh | ].
      apply in_app_or in I as [I | I]; [now apply F | ]. exfalso.
      destruct (commit_cases AuthTokenWriteable opts
                  (config.Authentication cfg) h' u')
        as [ (src & _ & X) | [ (_ & x & _ & X) | (_ & _ & X) ] ];
        rewrite X in I; simpl in I;
        repeat (destruct I as [<- | I]; [discriminate Rh | ]); destruct I.
    - unfold andThen, bind in I. simpl in I.
      destruct I as [<- | I]; [discriminate Rh | now apply F].
    - unfold andThen, bind in I. simpl in I.
      destruct I as [<- | I]; [discriminate Rh | now apply F]. }
  destruct (A h Rh) as [Ih Ph]. split; [exact Ih | ].
  intros Hs. now apply (passes_set _ _ Hs).
Qed.

(** X14. The command declares both flags with the empty string as default,
    so a command run without flags sets no filter: every login of the store
    is a candidate.  On a readable store with exactly one login in total, it
    goes to Step 4 with that login, whether active or not, without asking. *)
Theorem command_without_flags
    (f : cmdutil.Factory) (cfg : config.Config) (c : hostUser) :
  cmdutil.Config f = (cfg, None) ->
  config.Hosts (config.Authentication cfg) <> [] ->
  storeReadable (config.Authentication cfg) ""
    (config.Hosts (config.Authentication cfg)) ->
  flat_map
    (fun h =>
       map (fun u => {| host := h; user := u;
                        active := (u =? fst (config.User
                                    (config.Authentication cfg) h))%string |})
           (fst (config.UsersForHost (config.Authentication cfg) h)))
    (config.Hosts (config.Authentication cfg)) = [c] ->
  runCommand (NewCmdSwitch AuthTokenWriteable f None) (newOptions f)
             (fun _ => None) =
    andThen (CallConfig :: CallHosts ::
               reads "" (config.Hosts (config.Authentication cfg)))
      (commit AuthTokenWriteable (newOptions f) (config.Authentication cfg)
              (host c) (user c)).
Proof.
  intros C Hne S One. set (a := config.Authentication cfg) in *.
  unfold runCommand. simpl.
  change (parseFlags [] (fun _ => None)
            (setUser "" (setHostname "" (newOptions f))))
    with (newOptions f).
  apply (switchRun_resolved _ _ cfg); [exact C | ]. fold a.
  unfold resolve, call. rewrite bind_ok. simpl Hostname. simpl User.
  assert (P : preValidate a "" "" (config.Hosts a) = ([], Ok tt)).
  { unfold preValidate. now rewrite (length_eqb_0 _ Hne). }
  rewrite P, bind_ok. unfold buildCandidates.
  rewrite (rangeHosts_ok _ _ _ _ S), bind_ok.
  assert (E : candidateSet a "" "" (config.Hosts a) = [c]).
  { unfold candidateSet. rewrite filter_passes_unset. rewrite <- One.
    apply flat_map_ext. intros h. now rewrite filter_passes_unset. }
  cbv beta. rewrite E. simpl app. rewrite disambiguate_lone.
  unfold andThen; simpl. now rewrite app_nil_r.
Qed.

(** X15. Giving a flag the empty value is the same as leaving it out: the
    command behaves alike, with or without the test hook, since both flags
    are declared with the empty default. *)
Theorem empty_flag_is_no_flag
    (f : cmdutil.Factory) (runF : option (SwitchOptions -> M unit))
    (given : string -> option string) :
  runCommand (NewCmdSwitch AuthTokenWriteable f runF) (newOptions f) given =
  runCommand (NewCmdSwitch AuthTokenWriteable f runF) (newOptions f)
    (fun name =>
       match given name with
       | Some v => if (v =? "")%string then None else Some v
       | None => None
       end).
Proof.
  unfold runCommand. simpl.
  destruct (given "hostname") as [hv | ], (given "user") as [uv | ];
    try destruct (String.eqb_spec hv ""); try destruct (String.eqb_spec uv "");
    subst; reflexivity.
Qed.

(** X16. When the store lists no host twice and no user twice under a host,
    Step 2 builds a candidate set without repetition, in which each host has
    at most one active entry. *)
Theorem one_active_candidate_per_host
    (authCfg : config.AuthConfig) (hostname username : string)
    (knownHosts : list string) (t : list event) (cands : candidates) :
  buildCandidates authCfg hostname username knownHosts = (t, Ok cands) ->
  NoDup knownHosts ->
  (forall h, In h knownHosts -> NoDup (fst (config.UsersForHost authCfg h))) ->
  NoDup cands /\
  forall h,
    length (filter (fun c => (host c =? h)%string && active c) cands) <= 1.
Proof.
  intros B Nh Nu. apply rangeHosts_sound in B as [-> _]. simpl.
  pose proof (candidateSet_NoDup authCfg hostname username knownHosts Nh Nu) as N.
  split; [exact N | ]. intros h.
  apply (NoDup_all_equal
           {| host := h; user := fst (config.User authCfg h); active := true |}).
  - now apply NoDup_filter.
  - intros c I. apply filter_In in I as [I E].
    apply andb_prop in E as [Eh Ea]. apply String.eqb_eq in Eh.
    pose proof (candidateSet_entries authCfg hostname username knownHosts) as F.
    rewrite Forall_forall in F. destruct (F c I) as (_ & _ & _ & _ & A).
    rewrite Ea in A. symmetry in A. apply String.eqb_eq in A.
    destruct c as [ch cu ca]. simpl in *. now subst.
Qed.

(** X17. A run returns [nil] exactly when it made a [SwitchUser] call that
    returned [nil]: every other run ends with an error or a panic, and an
    error returned after a [SwitchUser] call is the register's own. *)
Theorem nil_iff_switched (opts : SwitchOptions) :
  (snd (switchRun AuthTokenWriteable opts) = Ok tt <->
   exists h u,
     In (CallSwitchUser h u) (fst (switchRun AuthTokenWriteable opts)) /\
     config.SwitchUser (config.Authentication (fst (Config opts))) h u = None) /\
  (forall h u e,
     snd (switchRun AuthTokenWriteable opts) = Return e ->
     In (CallSwitchUser h u) (fst (switchRun AuthTokenWriteable opts)) ->
     config.SwitchUser (config.Authentication (fst (Config opts))) h u = Some e).
Proof.
  assert (Q : forall cfg t r h u,
            resolve opts (config.Authentication cfg) = (t, r) ->
            ~ In (CallSwitchUser h u) (CallConfig :: t)).
  { intros cfg t r h u R [E | I]; [discriminate E | ].
    pose proof (resolve_quiet opts (config.Authentication cfg) isRegister) as X.
    rewrite R in X.
    refine (not_invoked_In isRegister t (CallSwitchUser h u) _ eq_refl I).
    apply X. now intros []. }
  destruct (switchRun_cases AuthTokenWriteable opts)
    as [ (cfg & e & _ & ->) | (cfg & t & C & [ (e & R & ->) | [ [R ->] |
         (h' & u' & R & ->) ] ]) ]; cbn [fst snd].
  - split; [split; [discriminate | ] | ].
    + intros (h & u & [E | [] ] & _). discriminate E.
    + intros h u e' _ [E | [] ]. discriminate E.
  - split; [split; [discriminate | ] | ].
    + intros (h & u & I & _). destruct (Q cfg t _ h u R I).
    + intros h u e' _ I. destruct (Q cfg t _ h u R I).
  - split; [split; [discriminate | ] | ].
    + intros (h & u & I & _). destruct (Q cfg t _ h u R I).
    + intros h u e' _ I. destruct (Q cfg t _ h u R I).
  - rewrite C. cbn [fst]. unfold andThen. cbn [fst snd].
    assert (Sw : forall h u,
              In (CallSwitchUser h u)
                 ((CallConfig :: t) ++
                  fst (commit AuthTokenWriteable opts
                         (config.Authentication cfg) h' u')) ->
              In (CallSwitchUser h u)
                 (fst (commit AuthTokenWriteable opts
                         (config.Authentication cfg) h' u'))).
    { intros h u I. apply in_app_or in I as [I | I]; [ | exact I].
      destruct (Q cfg t _ h u R I). }
    destruct (commit_cases AuthTokenWriteable opts (config.Authentication cfg)
                h' u')
      as [ (src & _ & X) | [ (_ & x & S & X) | (_ & S & X) ] ];
      rewrite X in Sw |- *; cbn [fst snd] in *.
    + split; [split; [discriminate | ] | ].
      * intros (h & u & I & _). apply Sw in I.
        destruct I as [E | [E | [E | [] ] ] ]; discriminate E.
      * intros h u e' _ I. apply Sw in I.
        destruct I as [E | [E | [E | [] ] ] ]; discriminate E.
    + split; [split; [discriminate | ] | ].
      * intros (h & u & I & N). apply Sw in I.
        destruct I as [E | [E | [] ] ]; [discriminate E | ].
        injection E as <- <-. congruence.
      * intros h u e' [= <-] I. apply Sw in I.
        destruct I as [E | [E | [] ] ]; [discriminate E | ].
        injection E as <- <-. exact S.
    + split; [split; [intros _ | reflexivity] | discriminate].
      exists h', u'. split; [ | exact S].
      apply in_or_app. right. simpl. auto.
Qed.

End Properties.

(** ** The further properties on the sample stores *)

Lemma config_error_returned_witness :
  Config Cases.noConfig =
    ({| config.Authentication := Sample.empty |},
     Some (errorString "cannot read config.yml")) /\
  switchRun Sample.writeable Cases.noConfig =
    ([CallConfig], Return (errorString "cannot read config.yml")).
Proof.
  split; [reflexivity | ].
  exact (config_error_returned Sample.writeable Cases.noConfig
           {| config.Authentication := Sample.empty |}
           (errorString "cannot read config.yml") eq_refl).
Defined.


Lemma chooser_error_wrapped_witness :
  shared.Select (Prompter Cases.interruptedOpts)
    "What account do you want to switch to?" ""
    ["alice (github.com) - active"; "alice (ghe.io) - active"] =
    (0%Z, Some (errorString "interrupt")) /\
  exists e,
    switchRun Sample.writeable Cases.interruptedOpts =
      ([CallConfig; CallHosts; CallUser "github.com";
        CallUsersForHost "github.com"; CallUser "ghe.io";
        CallUsersForHost "ghe.io"; CallCanPrompt;
        CallSelect "What account do you want to switch to?" ""
          ["alice (github.com) - active"; "alice (ghe.io) - active"] ],
       Return e) /\
    Error e = "could not prompt: interrupt"%string /\
    Unwrap e = Some (errorString "interrupt").
Proof.
  split; [reflexivity | ].
  destruct (chooser_error_wrapped Sample.writeable Cases.interruptedOpts
              {| config.Authentication := Sample.twoActive |}
              [CallHosts; CallUser "github.com"; CallUsersForHost "github.com";
               CallUser "ghe.io"; CallUsersForHost "ghe.io"]
              [ {| host := "github.com"; user := "alice"; active := true |};
                {| host := "ghe.io"; user := "alice"; active := true |} ]
              0%Z (errorString "interrupt") eq_refl eq_refl)
    as (e & Hs & He & Hu & _).
  - simpl; lia.
  - simpl; lia.
  - reflexivity.
  - reflexivity.
  - exists e. repeat split; assumption.
Defined.

Lemma chooser_index_out_of_range_witness :
  shared.Select (Prompter (Sample.opts Sample.twoActive true 2 "" ""))
    "What account do you want to switch to?" ""
    ["alice (github.com) - active"; "alice (ghe.io) - active"] = (2%Z, None) /\
  switchRun Sample.writeable (Sample.opts Sample.twoActive true 2 "" "") =
    ([CallConfig; CallHosts; CallUser "github.com"; CallUsersForHost "github.com";
      CallUser "ghe.io"; CallUsersForHost "ghe.io"; CallCanPrompt;
      CallSelect "What account do you want to switch to?" ""
        ["alice (github.com) - active"; "alice (ghe.io) - active"] ],
     Panic).
Proof.
  split; [reflexivity | ].
  apply (chooser_index_out_of_range Sample.writeable
           (Sample.opts Sample.twoActive true 2 "" "")
           {| config.Authentication := Sample.twoActive |}
           [CallHosts; CallUser "github.com"; CallUsersForHost "github.com";
            CallUser "ghe.io"; CallUsersForHost "ghe.io"]
           [ {| host := "github.com"; user := "alice"; active := true |};
             {| host := "ghe.io"; user := "alice"; active := true |} ]
           2%Z eq_refl eq_refl).
  - simpl; lia.
  - simpl; lia.
  - reflexivity.
  - reflexivity.
  - right. simpl. lia.
Defined.


Lemma switch_outcome_witness :
  resolve (Sample.opts Sample.readOnly false 0 Sample.hub "") Sample.readOnly =
    ([CallHosts; CallUser "github.com"; CallUsersForHost "github.com"],
     Ok ("github.com", "bob")) /\
  snd (Sample.writeable Sample.readOnly "github.com") = true /\
  switchRun Sample.writeable (Sample.opts Sample.readOnly false 0 Sample.hub "") =
    ([CallConfig; CallHosts; CallUser "github.com"; CallUsersForHost "github.com";
      CallAuthTokenWriteable "github.com"; CallSwitchUser "github.com" "bob"],
     Return (errorString "read-only configuration")).
Proof.
  split; [reflexivity | split; [reflexivity | ] ].
  exact (switch_outcome Sample.writeable
           (Sample.opts Sample.readOnly false 0 Sample.hub "")
           {| config.Authentication := Sample.readOnly |}
           [CallHosts; CallUser "github.com"; CallUsersForHost "github.com"]
           "github.com" "bob" eq_refl eq_refl eq_refl).
Defined.

Lemma success_means_switched_witness :
  snd (switchRun Sample.writeable (Sample.opts Sample.auth false 0 Sample.hub ""))
    = Ok tt /\
  exists cfg h u pre,
    Config (Sample.opts Sample.auth false 0 Sample.hub "") = (cfg, None) /\
    fst (switchRun Sample.writeable
           (Sample.opts Sample.auth false 0 Sample.hub "")) =
      pre ++ [CallAuthTokenWriteable h; CallSwitchUser h u;
              ErrOut ("v Switched active account on " ++ h ++ " to '" ++
                      u ++ "'" ++ nl)%string] /\
    stored (config.Authentication cfg) h u.
Proof.
  split; [reflexivity | ].
  destruct (success_means_switched Sample.writeable
              (Sample.opts Sample.auth false 0 Sample.hub "") eq_refl)
    as (cfg & h & u & pre & C & L & _ & _ & S).
  exists cfg, h, u, pre. repeat split; try assumption; apply S.
Defined.

Lemma switch_targets_stored_login_witness :
  In (CallSwitchUser "github.com" "bob")
     (fst (switchRun Sample.writeable
             (Sample.opts Sample.auth false 0 Sample.hub ""))) /\
  exists cfg,
    Config (Sample.opts Sample.auth false 0 Sample.hub "") = (cfg, None) /\
    snd (Sample.writeable (config.Authentication cfg) "github.com") = true /\
    stored (config.Authentication cfg) "github.com" "bob".
Proof.
  assert (I : In (CallSwitchUser "github.com" "bob")
                (fst (switchRun Sample.writeable
                        (Sample.opts Sample.auth false 0 Sample.hub "")))).
  { simpl. do 5 right. now left. }
  split; [exact I | ].
  destruct (switch_targets_stored_login Sample.writeable
              (Sample.opts Sample.auth false 0 Sample.hub "")
              "github.com" "bob" I)
    as (cfg & pre & post & C & _ & W & S & _).
  exists cfg. repeat split; try assumption; apply S.
Defined.


Lemma reads_only_filtered_hosts_witness :
  In (CallUsersForHost "ghe.io")
     (fst (switchRun Sample.writeable
             (Sample.opts Sample.auth false 0 Sample.ghe ""))) /\
  In "ghe.io" (config.Hosts Sample.auth) /\
  (filterSet "ghe.io" -> "ghe.io" = "ghe.io"%string).
Proof.
  assert (I : In (CallUsersForHost "ghe.io")
                (fst (switchRun Sample.writeable
                        (Sample.opts Sample.auth false 0 Sample.ghe "")))).
  { simpl. do 3 right. now left. }
  split; [exact I | ].
  exact (reads_only_filtered_hosts Sample.writeable
           (Sample.opts Sample.auth false 0 Sample.ghe "")
           {| config.Authentication := Sample.auth |}
           (CallUsersForHost "ghe.io") "ghe.io" eq_refl I eq_refl).
Defined.

Lemma command_without_flags_witness :
  storeReadable Cases.solo "" (config.Hosts Cases.solo) /\
  runCommand (NewCmdSwitch Sample.writeable (Cases.factory Cases.solo) None)
    (newOptions (Cases.factory Cases.solo)) (fun _ => None) =
    ([CallConfig; CallHosts; CallUser "github.com"; CallUsersForHost "github.com";
      CallAuthTokenWriteable "github.com"; CallSwitchUser "github.com" "alice";
      ErrOut ("v Switched active account on github.com to 'alice'" ++ nl)%string],
     Ok tt).
Proof.
  assert (R : storeReadable Cases.solo "" (config.Hosts Cases.solo)).
  { intros h _ _. split; reflexivity. }
  split; [exact R | ].
  rewrite (command_without_flags Sample.writeable (Cases.factory Cases.solo)
             {| config.Authentication := Cases.solo |}
             {| host := "github.com"; user := "alice"; active := true |}
             eq_refl).
  - reflexivity.
  - discriminate.
  - exact R.
  - reflexivity.
Defined.

Lemma one_active_candidate_per_host_witness :
  NoDup (config.Hosts Sample.auth) /\
  (forall h, In h (config.Hosts Sample.auth) ->
     NoDup (fst (config.UsersForHost Sample.auth h))) /\
  NoDup [ {| host := "github.com"; user := "alice"; active := true |};
          {| host := "github.com"; user := "bob"; active := false |};
          {| host := "ghe.io"; user := "alice"; active := true |} ].
Proof.
  assert (N1 : NoDup (config.Hosts Sample.auth)).
  { simpl. repeat constructor; simpl; intuition discriminate. }
  assert (N2 : forall h, In h (config.Hosts Sample.auth) ->
                 NoDup (fst (config.UsersForHost Sample.auth h))).
  { intros h [<- | [<- | [] ] ]; simpl; repeat constructor; simpl;
      intuition discriminate. }
  split; [exact N1 | split; [exact N2 | ] ].
  exact (proj1 (one_active_candidate_per_host Sample.auth "" ""
                  (config.Hosts Sample.auth)
                  [CallUser "github.com"; CallUsersForHost "github.com";
                   CallUser "ghe.io"; CallUsersForHost "ghe.io"]
                  _ eq_refl N1 N2)).
Defined.
